(** * n8n-nodes-ethereum: endpoint resolution, address resolution and the
      trigger's block cursor

    A shallow embedding of
    - [src/transport/index.ts]   ([buildRpcUrl], [buildWsUrl],
      [getNetworkConfig], [createProvider], [createWallet],
      [createConnection], [createConnectionFromCredentials],
      [validateAddress], [resolveAddress]),
    - [src/types/index.ts]       (the [NETWORKS] registry),
    - [src/utils/index.ts]       ([isValidAddress], [checksumAddress],
      [isZeroAddress], [shortenAddress], [toJsonSafe]),
    - [nodes/Ethereum/Ethereum.node.ts] ([EthereumTrigger.poll]),
    together with the properties the specification states about them.

    Conventions of the embedding.
    - JavaScript numbers that hold block numbers and option values are
      integers of [Z]; fractional option values are outside the model.
    - JavaScript strings are [string]s of 8-bit characters; case mapping
      acts on the ASCII letters, which is all the addresses contain.
    - A property read [object[key]] with a key the caller supplies finds
      the object's own entries and the members it inherits from
      [Object.prototype] ([inherited]).
    - An asynchronous call either returns or throws: [Outcome].  The calls
      a function makes to the RPC endpoint are recorded, in order, in the
      [calls] of a [Run], so that "no network call" is a statement about
      that list. *)

From Stdlib Require Import ZArith NArith List String Ascii Bool Lia Sorted.
From Stdlib Require Import DecimalString.
Import ListNotations.

Local Open Scope string_scope.
Local Open Scope list_scope.
Local Open Scope Z_scope.

(* ====================================================================== *)
(** * JavaScript values and control flow *)
(* ====================================================================== *)

Module JS.

(** A thrown [Error] carries its message. *)
Definition Error := string.

Inductive Outcome (A : Type) : Type :=
| Returned (a : A)
| Threw (e : Error).
Arguments Returned {A} a.
Arguments Threw {A} e.

(** [o] is a return, not a throw. *)
Definition returns {A} (o : Outcome A) : bool :=
  match o with Returned _ => true | Threw _ => false end.

(** [s] is truthy: a string is falsy exactly when it is empty. *)
Definition truthy (s : string) : bool :=
  match s with EmptyString => false | String _ _ => true end.

(** Truthiness of an optional string ([undefined] is falsy). *)
Definition truthy_opt (s : option string) : bool :=
  match s with Some s => truthy s | None => false end.

(** [(x as number) || d]: [undefined] and [0] are falsy. *)
Definition num_or (x : option Z) (d : Z) : Z :=
  match x with
  | Some v => if v =? 0 then d else v
  | None => d
  end.

Definition is_upper (c : ascii) : bool :=
  let n := nat_of_ascii c in (65 <=? n)%nat && (n <=? 90)%nat.

Definition is_lower (c : ascii) : bool :=
  let n := nat_of_ascii c in (97 <=? n)%nat && (n <=? 122)%nat.

Definition lower_char (c : ascii) : ascii :=
  if is_upper c then ascii_of_nat (nat_of_ascii c + 32) else c.

Definition upper_char (c : ascii) : ascii :=
  if is_lower c then ascii_of_nat (nat_of_ascii c - 32) else c.

(** [s.toLowerCase()] *)
Fixpoint toLowerCase (s : string) : string :=
  match s with
  | EmptyString => EmptyString
  | String c r => String (lower_char c) (toLowerCase r)
  end.

(** [s.startsWith(p)] *)
Fixpoint startsWith (s p : string) {struct p} : bool :=
  match p, s with
  | EmptyString, _ => true
  | String _ _, EmptyString => false
  | String b p', String a s' => Ascii.eqb a b && startsWith s' p'
  end.

(** [s.indexOf(c) !== -1] for a one-character needle. *)
Fixpoint contains_char (c : ascii) (s : string) : bool :=
  match s with
  | EmptyString => false
  | String d r => Ascii.eqb c d || contains_char c r
  end.

(** The members an object literal inherits from [Object.prototype].  A
    property read [object[key]] finds them when the object has no entry
    of its own under [key]: a function or, for [__proto__], the prototype
    object, in either case a truthy value with none of the object's
    fields. *)
Definition objectPrototype : list string :=
  [ "constructor"; "hasOwnProperty"; "isPrototypeOf";
    "propertyIsEnumerable"; "toLocaleString"; "toString"; "valueOf";
    "__proto__"; "__defineGetter__"; "__defineSetter__";
    "__lookupGetter__"; "__lookupSetter__" ].

(** [key] names an inherited member. *)
Definition inherited (key : string) : bool :=
  existsb (String.eqb key) objectPrototype.

End JS.
Import JS.

(* ====================================================================== *)
(** * Calls to the RPC endpoint and runs that record them *)
(* ====================================================================== *)

(** The two topic filters of [contract.filters.Transfer(from, to)];
    [None] is JavaScript's [null], a wildcard. *)
Record TransferFilter : Type := {
  tf_from : option string;
  tf_to : option string
}.

(** Which ABI the polled contract object was built with. *)
Inductive TransferAbi : Type := ERC20_ABI | ERC721_TRANSFER_ABI.

Inductive Call : Type :=
| CallGetBlockNumber
| CallGetBlock (blockNum : Z) (includeTx : bool)
| CallResolveName (name : string)
| CallQueryEvent (contractAddress eventName : string) (fromBlock toBlock : Z)
| CallQueryTransfer (abi : TransferAbi) (tokenAddress : string)
    (filter : TransferFilter) (fromBlock toBlock : Z)
| CallTokenInfo (tokenAddress : string).

Record Run (A : Type) : Type := {
  calls : list Call;
  result : Outcome A
}.
Arguments calls {A} r.
Arguments result {A} r.

Module RunMonad.

Definition ret {A} (a : A) : Run A :=
  {| calls := []; result := Returned a |}.

Definition throw {A} (e : Error) : Run A :=
  {| calls := []; result := Threw e |}.

(** One awaited request: it is recorded whether it returns or throws. *)
Definition request {A} (c : Call) (answer : Outcome A) : Run A :=
  {| calls := [c]; result := answer |}.

(** A synchronous library computation that may throw. *)
Definition lift {A} (o : Outcome A) : Run A :=
  {| calls := []; result := o |}.

Definition bind {A B} (m : Run A) (k : A -> Run B) : Run B :=
  match result m with
  | Threw e => {| calls := calls m; result := Threw e |}
  | Returned a =>
      let r := k a in
      {| calls := calls m ++ calls r; result := result r |}
  end.

Declare Scope run_scope.
Notation "x <- m ;; k" := (bind m (fun x => k))
  (at level 61, m at next level, right associativity) : run_scope.
Notation "m ;;; k" := (bind m (fun _ => k))
  (at level 61, right associativity) : run_scope.

End RunMonad.
Import RunMonad.
Local Open Scope run_scope.

(* ====================================================================== *)
(** * Keccak-256, the hash under the address checksum *)
(* ====================================================================== *)

(** The library's [keccak256] is the original Keccak with a 1088-bit rate
    and the [0x01] padding byte.  The state is 25 lanes of 64 bits, lane
    [(x, y)] at index [x + 5 y]. *)
Module Keccak.

Local Open Scope N_scope.

Definition mask64 : N := 0xFFFFFFFFFFFFFFFF.

Definition rotl (x n : N) : N :=
  N.land (N.lor (N.shiftl x n) (N.shiftr x (64 - n))) mask64.

Definition lane (A : list N) (x y : nat) : N := nth (x + 5 * y) A 0.

Definition lanes (f : nat -> nat -> N) : list N :=
  map (fun i => f (i mod 5)%nat (i / 5)%nat) (seq 0 25).

Definition round_constants : list N :=
  [ 0x0000000000000001; 0x0000000000008082; 0x800000000000808A;
    0x8000000080008000; 0x000000000000808B; 0x0000000080000001;
    0x8000000080008081; 0x8000000000008009; 0x000000000000008A;
    0x0000000000000088; 0x0000000080008009; 0x000000008000000A;
    0x000000008000808B; 0x800000000000008B; 0x8000000000008089;
    0x8000000000008003; 0x8000000000008002; 0x8000000000000080;
    0x000000000000800A; 0x800000008000000A; 0x8000000080008081;
    0x8000000000008080; 0x0000000080000001; 0x8000000080008008 ].

(** Rotation offsets, indexed [x + 5 y]. *)
Definition rotation_offsets : list N :=
  [  0;  1; 62; 28; 27;
    36; 44;  6; 55; 20;
     3; 10; 43; 25; 39;
    41; 45; 15; 21;  8;
    18;  2; 61; 56; 14 ].

Definition theta (A : list N) : list N :=
  let C := fun x => N.lxor (lane A x 0) (N.lxor (lane A x 1)
             (N.lxor (lane A x 2) (N.lxor (lane A x 3) (lane A x 4)))) in
  let D := fun x => N.lxor (C ((x + 4) mod 5)%nat)
                           (rotl (C ((x + 1) mod 5)%nat) 1) in
  lanes (fun x y => N.lxor (lane A x y) (D x)).

(** [B[y, 2x + 3y] = rotl A[x, y] r[x, y]], read from the target side. *)
Definition rho_pi (A : list N) : list N :=
  lanes (fun X Y =>
    let x := ((X + 3 * Y) mod 5)%nat in
    rotl (lane A x X) (lane rotation_offsets x X)).

Definition chi (B : list N) : list N :=
  lanes (fun x y =>
    N.lxor (lane B x y)
      (N.land (N.lxor (lane B ((x + 1) mod 5)%nat y) mask64)
              (lane B ((x + 2) mod 5)%nat y))).

Definition iota (rc : N) (A : list N) : list N :=
  match A with
  | a :: r => N.lxor a rc :: r
  | [] => []
  end.

Definition round (A : list N) (rc : N) : list N :=
  iota rc (chi (rho_pi (theta A))).

Definition keccak_f (A : list N) : list N :=
  fold_left round round_constants A.

Definition rate : nat := 136.

(** Multi-rate padding [0x01 0x00 ... 0x80] up to a multiple of the rate. *)
Definition pad (len : nat) : list N :=
  let k := (rate - len mod rate)%nat in
  match k with
  | 1%nat => [0x81]
  | _ => 0x01 :: repeat 0 (k - 2) ++ [0x80]
  end.

Fixpoint le_lane (bytes : list N) : N :=
  match bytes with
  | [] => 0
  | b :: r => b + 256 * le_lane r
  end.

Fixpoint block_lanes (n : nat) (bytes : list N) : list N :=
  match n with
  | O => []
  | S n' => le_lane (firstn 8 bytes) :: block_lanes n' (skipn 8 bytes)
  end.

Definition absorb_block (A : list N) (block : list N) : list N :=
  let L := block_lanes 25 block in
  keccak_f (map (fun p => N.lxor (fst p) (snd p)) (combine A L)).

Fixpoint absorb (blocks : nat) (A : list N) (bytes : list N) : list N :=
  match blocks with
  | O => A
  | S n => absorb n (absorb_block A (firstn rate bytes)) (skipn rate bytes)
  end.

Fixpoint lane_bytes (n : nat) (l : N) : list N :=
  match n with
  | O => []
  | S n' => (l mod 256) :: lane_bytes n' (l / 256)
  end.

(** Modelled from the spec: the library's [keccak256], the hash of the
    EIP-55 encoding; the 32 bytes of the digest. *)
Definition keccak256 (msg : list N) : list N :=
  let padded := msg ++ pad (List.length msg) in
  let A := absorb (List.length padded / rate) (repeat 0 25) padded in
  flat_map (lane_bytes 8) (firstn 4 A).

End Keccak.

(* ====================================================================== *)
(** * The address functions of the client library *)
(* ====================================================================== *)

(** [isAddress] and [getAddress] are imported from the JSON-RPC client
    library.  The repository's functions are written against this
    interface; [getAddress] throws on an input it does not accept. *)
Class AddressLib : Type := {
  isAddress : string -> bool;
  getAddress : string -> Outcome string
}.

(** Modelled from the spec: the library's [getAddress] and [isAddress] are
    not part of the repository's sources.  The model is the hexadecimal
    form of the specification's "syntactically valid hex address" and the
    EIP-55 "checksummed form" of its glossary: forty hex digits with an
    optional [0x], upper-cased where the Keccak-256 digest of the
    lower-case digits has a nibble of 8 or more, a mixed-case input being
    accepted only when it is already so checksummed.  Other input
    notations the library may accept are not modelled. *)
Module Ethers.

Definition is_digit (c : ascii) : bool :=
  let n := nat_of_ascii c in (48 <=? n)%nat && (n <=? 57)%nat.

(** [[A-F]] *)
Definition is_hex_upper (c : ascii) : bool :=
  let n := nat_of_ascii c in (65 <=? n)%nat && (n <=? 70)%nat.

(** [[a-f]] *)
Definition is_hex_lower (c : ascii) : bool :=
  let n := nat_of_ascii c in (97 <=? n)%nat && (n <=? 102)%nat.

(** [[0-9a-fA-F]] *)
Definition is_hex (c : ascii) : bool :=
  is_digit c || is_hex_lower c || is_hex_upper c.

Fixpoint all_chars (p : ascii -> bool) (s : string) : bool :=
  match s with
  | EmptyString => true
  | String c r => p c && all_chars p r
  end.

Fixpoint some_char (p : ascii -> bool) (s : string) : bool :=
  match s with
  | EmptyString => false
  | String c r => p c || some_char p r
  end.

(** [s.substring(n)] *)
Fixpoint substring_from (n : nat) (s : string) : string :=
  match n, s with
  | O, _ => s
  | S n', String _ r => substring_from n' r
  | S _, EmptyString => EmptyString
  end.

(** [/^[0-9a-fA-F]{40}$/] *)
Definition hex40 (s : string) : bool :=
  (String.length s =? 40)%nat && all_chars is_hex s.

(** [/^(0x)?[0-9a-fA-F]{40}$/] *)
Definition matches_address (s : string) : bool :=
  if startsWith s "0x" then hex40 (substring_from 2 s) else hex40 s.

(** [/([A-F].*[a-f])|([a-f].*[A-F])/]: on one line, an upper-case and a
    lower-case hex letter both occur. *)
Definition mixed_case (s : string) : bool :=
  some_char is_hex_upper s && some_char is_hex_lower s.

(** The two 4-bit halves of each byte, high half first. *)
Definition nibbles (bytes : list N) : list N :=
  flat_map (fun b => [N.shiftr b 4; N.land b 15]) bytes.

(** Upper-case [chars[i]] where nibble [i] of the digest is at least 8. *)
Fixpoint apply_case (chars : string) (nib : list N) : string :=
  match chars, nib with
  | String c r, n :: ns =>
      String (if (8 <=? n)%N then upper_char c else c) (apply_case r ns)
  | _, _ => chars
  end.

Definition char_codes (s : string) : list N :=
  map N_of_ascii (list_ascii_of_string s).

(** A character that is not an upper-case letter. *)
Definition not_upper (c : ascii) : bool := negb (is_upper c).

(** The digest nibbles that decide the case of the digits [chars]. *)
Definition case_nibbles (chars : string) : list N :=
  nibbles (firstn 20 (Keccak.keccak256 (char_codes chars))).

(** Modelled from the spec: the library's checksum routine, the EIP-55
    mixed-case encoding of a [0x] and forty hex digits (it is applied to
    nothing else). *)
Definition getChecksumAddress (address : string) : string :=
  let chars := substring_from 2 (toLowerCase address) in
  let hashed := Keccak.keccak256 (char_codes chars) in
  ("0x" ++ apply_case chars (nibbles (firstn 20 hashed)))%string.

(** The address with its [0x], added when missing. *)
Definition prefixed (address : string) : string :=
  if startsWith address "0x" then address else ("0x" ++ address)%string.

(** Modelled from the spec: the library's [getAddress], which returns the
    checksummed form of a syntactically valid hex address and throws on
    anything else. *)
Definition getAddress (address : string) : Outcome string :=
  if matches_address address then
    let address := prefixed address in
    let result := getChecksumAddress address in
    if mixed_case address && negb (String.eqb result address)
    then Threw "bad address checksum"
    else Returned result
  else Threw "invalid address".

(** Modelled from the spec: the library's [isAddress], true when
    [getAddress] does not throw. *)
Definition isAddress (value : string) : bool :=
  match getAddress value with
  | Returned _ => true
  | Threw _ => false
  end.

End Ethers.

#[export] Instance ethers : AddressLib := {
  isAddress := Ethers.isAddress;
  getAddress := Ethers.getAddress
}.

(** The library's [getAddress] reads a second notation besides the
    hexadecimal one: the ICAP form, [XE], two check digits and thirty or
    thirty-one base-36 digits.  This module follows the library's address
    routine (ethers v6, [address/address.ts]), which is not part of the
    repository's sources: the hexadecimal branch is [Ethers.getAddress];
    the ICAP branch compares the check digits with the IBAN checksum and
    turns the base-36 body into forty hex digits, which it checksums. *)
Module Icap.
Import Ethers.

(** [[0-9A-Za-z]] *)
Definition is_alnum (c : ascii) : bool :=
  is_digit c || is_upper c || is_lower c.

(** [/^XE[0-9]{2}[0-9A-Za-z]{30,31}$/] *)
Definition matches_icap (s : string) : bool :=
  startsWith s "XE" && all_chars is_digit (substring 2 2 s) &&
  ((String.length s =? 34)%nat || (String.length s =? 35)%nat) &&
  all_chars is_alnum (substring_from 4 s).

(** The value of a base-36 digit, in either case. *)
Definition digit36 (c : ascii) : N :=
  if is_digit c then (N_of_ascii c - 48)%N
  else (N_of_ascii (lower_char c) - 87)%N.

Definition fromBase36 (value : string) : N :=
  fold_left (fun result c => result * 36 + digit36 c)%N
            (list_ascii_of_string value) 0%N.

(** The remainder modulo 97 of the decimal text in which every digit
    stands for itself and every letter for the two digits of its value
    ([A] is 10, [Z] is 35).  The library reduces that text in blocks of
    fifteen digits, which gives the same remainder. *)
Definition mod97 (s : string) : N :=
  fold_left (fun r c => let v := digit36 c in
                        if (v <? 10)%N then ((r * 10 + v) mod 97)%N
                        else ((r * 100 + v) mod 97)%N)
            (list_ascii_of_string s) 0%N.

Definition decimal_digit (n : N) : ascii := ascii_of_N (48 + n).

(** The two check digits of an ICAP address: 98 less the remainder of
    the body followed by [XE00]. *)
Definition ibanChecksum (address : string) : string :=
  let checksum :=
    (98 - mod97 (substring_from 4 address ++ substring 0 2 address
                 ++ "00")%string)%N in
  String (decimal_digit (checksum / 10))
         (String (decimal_digit (checksum mod 10)) EmptyString).

Definition hex_digit (n : N) : ascii :=
  if (n <? 10)%N then ascii_of_N (48 + n) else ascii_of_N (87 + n).

(** The [width] low hex digits of [n], most significant first. *)
Fixpoint hex_of (width : nat) (n : N) : string :=
  match width with
  | O => EmptyString
  | S w => String (hex_digit ((n / 16 ^ N.of_nat w) mod 16)%N) (hex_of w n)
  end.

(** [n.toString(16)], padded on the left with zeros to forty digits; a
    body of thirty-one base-36 digits can need forty-one. *)
Definition padded_hex (n : N) : string :=
  if (n <? 16 ^ 40)%N then hex_of 40 n else hex_of 41 n.

(** The library's [getAddress] with both notations.  The checksum
    routine hashes the first forty digits and sets their case. *)
Definition getAddress (address : string) : Outcome string :=
  if matches_address address then Ethers.getAddress address
  else if matches_icap address then
    if String.eqb (substring 2 2 address) (ibanChecksum address) then
      let result := padded_hex (fromBase36 (substring_from 4 address)) in
      Returned ("0x" ++ apply_case result
                          (case_nibbles (substring 0 40 result)))%string
    else Threw "bad icap checksum"
  else Threw "invalid address".

Definition isAddress (value : string) : bool :=
  match getAddress value with
  | Returned _ => true
  | Threw _ => false
  end.

End Icap.

(** The library with the ICAP notation; it is not an instance that
    resolution picks, [ethers] stays the default. *)
Definition ethersWithIcap : AddressLib := {|
  isAddress := Icap.isAddress;
  getAddress := Icap.getAddress
|}.

(* ====================================================================== *)
(** * The network registry ([src/types/index.ts]) *)
(* ====================================================================== *)

Module Types.

Record RpcUrls : Type := {
  alchemy : option string;
  infura : option string;
  ankr : option string;
  public : option string
}.

Record NetworkConfig : Type := {
  name : string;
  chainId : Z;
  symbol : string;
  explorer : string;
  isTestnet : bool;
  supportsEIP1559 : bool;
  rpcUrls : RpcUrls;
  wsUrls : option RpcUrls
}.

(** [urls[key]] for a key given as a string. *)
Definition url_of (urls : RpcUrls) (key : string) : option string :=
  if String.eqb key "alchemy" then alchemy urls
  else if String.eqb key "infura" then infura urls
  else if String.eqb key "ankr" then ankr urls
  else if String.eqb key "public" then public urls
  else None.

Definition mk (name : string) (chainId : Z) (symbol explorer : string)
    (isTestnet supportsEIP1559 : bool)
    (alchemy infura ankr public : option string)
    (wsUrls : option RpcUrls) : NetworkConfig :=
  {| name := name; chainId := chainId; symbol := symbol;
     explorer := explorer; isTestnet := isTestnet;
     supportsEIP1559 := supportsEIP1559;
     rpcUrls := {| alchemy := alchemy; infura := infura; ankr := ankr;
                   public := public |};
     wsUrls := wsUrls |}.

Definition ws (alchemy infura : string) : option RpcUrls :=
  Some {| alchemy := Some alchemy; infura := Some infura; ankr := None;
          public := None |}.

Definition NETWORKS : list (string * NetworkConfig) :=
  [ ("mainnet",
     mk "Ethereum Mainnet" 1 "ETH" "https://etherscan.io" false true
        (Some "eth-mainnet.g.alchemy.com/v2") (Some "mainnet.infura.io/v3")
        (Some "rpc.ankr.com/eth") (Some "eth.llamarpc.com")
        (ws "eth-mainnet.g.alchemy.com/v2" "mainnet.infura.io/ws/v3"));
    ("sepolia",
     mk "Sepolia Testnet" 11155111 "ETH" "https://sepolia.etherscan.io"
        true true
        (Some "eth-sepolia.g.alchemy.com/v2") (Some "sepolia.infura.io/v3")
        (Some "rpc.ankr.com/eth_sepolia") (Some "rpc.sepolia.org")
        (ws "eth-sepolia.g.alchemy.com/v2" "sepolia.infura.io/ws/v3"));
    ("goerli",
     mk "Goerli Testnet (Deprecated)" 5 "ETH" "https://goerli.etherscan.io"
        true true
        (Some "eth-goerli.g.alchemy.com/v2") (Some "goerli.infura.io/v3")
        (Some "rpc.ankr.com/eth_goerli") (Some "rpc.goerli.mudit.blog")
        None);
    ("holesky",
     mk "Holesky Testnet" 17000 "ETH" "https://holesky.etherscan.io"
        true true
        (Some "eth-holesky.g.alchemy.com/v2") (Some "holesky.infura.io/v3")
        (Some "rpc.ankr.com/eth_holesky")
        (Some "ethereum-holesky.publicnode.com") None);
    ("polygon",
     mk "Polygon Mainnet" 137 "MATIC" "https://polygonscan.com" false true
        (Some "polygon-mainnet.g.alchemy.com/v2")
        (Some "polygon-mainnet.infura.io/v3")
        (Some "rpc.ankr.com/polygon") (Some "polygon-rpc.com") None);
    ("polygon-amoy",
     mk "Polygon Amoy Testnet" 80002 "MATIC" "https://amoy.polygonscan.com"
        true true
        (Some "polygon-amoy.g.alchemy.com/v2")
        (Some "polygon-amoy.infura.io/v3")
        (Some "rpc.ankr.com/polygon_amoy")
        (Some "rpc-amoy.polygon.technology") None);
    ("arbitrum",
     mk "Arbitrum One" 42161 "ETH" "https://arbiscan.io" false true
        (Some "arb-mainnet.g.alchemy.com/v2")
        (Some "arbitrum-mainnet.infura.io/v3")
        (Some "rpc.ankr.com/arbitrum") (Some "arb1.arbitrum.io/rpc") None);
    ("arbitrum-sepolia",
     mk "Arbitrum Sepolia" 421614 "ETH" "https://sepolia.arbiscan.io"
        true true
        (Some "arb-sepolia.g.alchemy.com/v2")
        (Some "arbitrum-sepolia.infura.io/v3")
        (Some "rpc.ankr.com/arbitrum_sepolia")
        (Some "sepolia-rollup.arbitrum.io/rpc") None);
    ("optimism",
     mk "Optimism" 10 "ETH" "https://optimistic.etherscan.io" false true
        (Some "opt-mainnet.g.alchemy.com/v2")
        (Some "optimism-mainnet.infura.io/v3")
        (Some "rpc.ankr.com/optimism") (Some "mainnet.optimism.io") None);
    ("optimism-sepolia",
     mk "Optimism Sepolia" 11155420 "ETH"
        "https://sepolia-optimism.etherscan.io" true true
        (Some "opt-sepolia.g.alchemy.com/v2")
        (Some "optimism-sepolia.infura.io/v3")
        (Some "rpc.ankr.com/optimism_sepolia") (Some "sepolia.optimism.io")
        None);
    ("base",
     mk "Base" 8453 "ETH" "https://basescan.org" false true
        (Some "base-mainnet.g.alchemy.com/v2")
        (Some "base-mainnet.infura.io/v3")
        (Some "rpc.ankr.com/base") (Some "mainnet.base.org") None);
    ("base-sepolia",
     mk "Base Sepolia" 84532 "ETH" "https://sepolia.basescan.org" true true
        (Some "base-sepolia.g.alchemy.com/v2")
        (Some "base-sepolia.infura.io/v3")
        (Some "rpc.ankr.com/base_sepolia") (Some "sepolia.base.org") None);
    ("avalanche",
     mk "Avalanche C-Chain" 43114 "AVAX" "https://snowtrace.io" false true
        None (Some "avalanche-mainnet.infura.io/v3")
        (Some "rpc.ankr.com/avalanche")
        (Some "api.avax.network/ext/bc/C/rpc") None);
    ("avalanche-fuji",
     mk "Avalanche Fuji" 43113 "AVAX" "https://testnet.snowtrace.io"
        true true
        None (Some "avalanche-fuji.infura.io/v3")
        (Some "rpc.ankr.com/avalanche_fuji")
        (Some "api.avax-test.network/ext/bc/C/rpc") None);
    ("bsc",
     mk "BNB Smart Chain" 56 "BNB" "https://bscscan.com" false false
        None None (Some "rpc.ankr.com/bsc")
        (Some "bsc-dataseed.binance.org") None);
    ("bsc-testnet",
     mk "BNB Smart Chain Testnet" 97 "tBNB" "https://testnet.bscscan.com"
        true false
        None None (Some "rpc.ankr.com/bsc_testnet_chapel")
        (Some "data-seed-prebsc-1-s1.binance.org:8545") None);
    ("custom",
     mk "Custom Network" 0 "ETH" "" false true None None None None None) ].

(** [NETWORKS[network]] *)
Fixpoint lookup (table : list (string * NetworkConfig)) (network : string)
  : option NetworkConfig :=
  match table with
  | [] => None
  | (k, v) :: rest => if String.eqb k network then Some v
                      else lookup rest network
  end.

Record EthereumCredentials : Type := {
  network : string;
  rpcProvider : string;
  apiKey : option string;
  customRpcUrl : option string;
  customWsUrl : option string;
  customChainId : option Z;
  walletType : string;
  privateKey : option string;
  mnemonic : option string;
  derivationPath : option string
}.

(** Checks run over every entry of the registry. *)

(** The entry is not the ["custom"] placeholder. *)
Definition named (entry : string * NetworkConfig) : bool :=
  negb (String.eqb (fst entry) "custom").

(** The hostname templates the entry has are not empty. *)
Definition templates_present (entry : string * NetworkConfig) : bool :=
  let ok := fun t => match t with Some t => truthy t | None => true end in
  ok (alchemy (rpcUrls (snd entry))) && ok (infura (rpcUrls (snd entry))) &&
  ok (ankr (rpcUrls (snd entry))) && ok (public (rpcUrls (snd entry))).

(** A named entry has a public host. *)
Definition public_present (entry : string * NetworkConfig) : bool :=
  negb (named entry) ||
  match public (rpcUrls (snd entry)) with
  | Some host => truthy host
  | None => false
  end.

(** Only mainnet and sepolia have WebSocket templates, for alchemy and
    infura. *)
Definition ws_only_two (entry : string * NetworkConfig) : bool :=
  match wsUrls (snd entry) with
  | None => true
  | Some urls =>
      (String.eqb (fst entry) "mainnet" || String.eqb (fst entry) "sepolia")
      && match alchemy urls, infura urls with
         | Some a, Some i => truthy a && truthy i
         | _, _ => false
         end
  end.

(** A named entry has a positive chain id. *)
Definition chain_id_set (entry : string * NetworkConfig) : bool :=
  negb (named entry) || (0 <? chainId (snd entry)).

End Types.

(* ====================================================================== *)
(** * The RPC endpoint as seen by one invocation *)
(* ====================================================================== *)

Record Tx : Type := {
  tx_hash : string;
  tx_from : string;
  tx_to : option string;
  tx_value : Z
}.

Record Block : Type := {
  block_number : Z;
  block_timestamp : Z;
  prefetchedTransactions : list Tx
}.

Record Log : Type := {
  log_blockNumber : Z;
  log_transactionHash : string;
  log_index : Z;
  log_topics : list string;
  log_data : string
}.

(** A log returned by a [Transfer] query; [tl_args] is absent when the
    library could not decode it, else [(from, to, value or tokenId)]. *)
Record TransferLog : Type := {
  tl_log : Log;
  tl_args : option (string * string * Z)
}.

Record TokenInfo : Type := {
  token_name : string;
  token_symbol : string;
  token_decimals : Z
}.

(** What the endpoint answers to each request. *)
Record Provider : Type := {
  getBlockNumber : Outcome Z;
  getBlock : Z -> bool -> Outcome (option Block);
  resolveName : string -> Outcome (option string);
  queryEvent : string -> string -> Z -> Z -> Outcome (list Log);
  queryTransfer : TransferAbi -> string -> TransferFilter -> Z -> Z ->
                  Outcome (list TransferLog);
  tokenInfo : string -> Outcome TokenInfo
}.

(* ====================================================================== *)
(** * Transport layer ([src/transport/index.ts]) *)
(* ====================================================================== *)

Module Transport.
Import Types.

(** The text a template literal gives an optional string. *)
Definition show (s : option string) : string :=
  match s with Some s => s | None => "undefined" end.

(** The value of [s] when it is truthy. *)
Definition present (s : option string) : option string :=
  match s with
  | Some s => if truthy s then Some s else None
  | None => None
  end.

(** [NETWORKS[network]] and [rpcUrls[rpcProvider]] are property reads
    with a key the caller supplies: besides the entries of [lookup] and
    [url_of] they find the [inherited] members.  Such a member passes the
    truthiness guard as a descriptor or template would.  As a network it
    has no [rpcUrls], and reading a property of that [undefined] throws a
    [TypeError]; as a provider it is none of the four cases of the
    [switch], which leaves the [default] arm. *)
Definition buildRpcUrl (credentials : EthereumCredentials)
  : Outcome string :=
  let network := network credentials in
  let rpcProvider := rpcProvider credentials in
  let apiKey := apiKey credentials in
  let customRpcUrl := customRpcUrl credentials in
  if String.eqb rpcProvider "custom" || String.eqb network "custom" then
    match present customRpcUrl with
    | None =>
        Threw "Custom RPC URL is required for custom provider/network"
    | Some url => Returned url
    end
  else
    match lookup NETWORKS network with
    | None =>
        if negb (inherited network) then
          Threw ("Unknown network: " ++ network)%string
        else if String.eqb rpcProvider "public" then
          Threw "Cannot read properties of undefined (reading 'public')"
        else if negb (truthy_opt apiKey) then
          Threw ("API key is required for " ++ rpcProvider
                 ++ " provider")%string
        else
          Threw ("Cannot read properties of undefined (reading '"
                 ++ rpcProvider ++ "')")%string
    | Some networkConfig =>
        if String.eqb rpcProvider "public" then
          match present (public (rpcUrls networkConfig)) with
          | None =>
              Threw ("No public RPC available for network: "
                     ++ network)%string
          | Some publicUrl => Returned ("https://" ++ publicUrl)%string
          end
        else if negb (truthy_opt apiKey) then
          Threw ("API key is required for " ++ rpcProvider
                 ++ " provider")%string
        else
          match present (url_of (rpcUrls networkConfig) rpcProvider) with
          | None =>
              if negb (inherited rpcProvider) then
                Threw ("Provider " ++ rpcProvider
                       ++ " not available for network: " ++ network)%string
              else Threw ("Unknown RPC provider: " ++ rpcProvider)%string
          | Some providerUrl =>
              let keyed :=
                ("https://" ++ providerUrl ++ "/" ++ show apiKey)%string in
              if String.eqb rpcProvider "alchemy" then Returned keyed
              else if String.eqb rpcProvider "infura" then Returned keyed
              else if String.eqb rpcProvider "ankr" then
                if truthy_opt apiKey then Returned keyed
                else Returned ("https://" ++ providerUrl)%string
              else if String.eqb rpcProvider "quicknode" then
                match present customRpcUrl with
                | Some url => Returned url
                | None => Returned keyed
                end
              else Threw ("Unknown RPC provider: " ++ rpcProvider)%string
          end
    end.

Section WithLibrary.
Context {lib : AddressLib}.

Definition validateAddress (address : string) : Outcome string :=
  if negb (isAddress address) then
    Threw ("Invalid Ethereum address: " ++ address)%string
  else getAddress address.

Definition resolveAddress (addressOrEns : string) (provider : Provider)
  : Run string :=
  if isAddress addressOrEns then lift (getAddress addressOrEns)
  else if contains_char "." addressOrEns then
    resolved <- request (CallResolveName addressOrEns)
                        (resolveName provider addressOrEns) ;;
    match present resolved with
    | None => throw ("Could not resolve ENS name: " ++ addressOrEns)%string
    | Some resolved => ret resolved
    end
  else throw ("Invalid address or ENS name: " ++ addressOrEns)%string.

End WithLibrary.

(** Here an [inherited] member gives [null] as a missing one does: as a
    network it has no [wsUrls], and as a provider it is neither of the
    two cases of the [switch]. *)
Definition buildWsUrl (credentials : EthereumCredentials) : option string :=
  let network := network credentials in
  let rpcProvider := rpcProvider credentials in
  let apiKey := apiKey credentials in
  match present (customWsUrl credentials) with
  | Some customWsUrl => Some customWsUrl
  | None =>
      if String.eqb rpcProvider "custom" || String.eqb network "custom"
      then None
      else
        match lookup NETWORKS network with
        | None => None
        | Some networkConfig =>
            match wsUrls networkConfig with
            | None => None
            | Some urls =>
                match present (url_of urls rpcProvider) with
                | None => None
                | Some wsUrl =>
                    let keyed :=
                      ("wss://" ++ wsUrl ++ "/" ++ show apiKey)%string in
                    if String.eqb rpcProvider "alchemy" then Some keyed
                    else if String.eqb rpcProvider "infura" then Some keyed
                    else None
                end
            end
        end
  end.

(** [{ ...config, chainId }] *)
Definition withChainId (config : NetworkConfig) (chainId : Z)
  : NetworkConfig :=
  {| name := name config; chainId := chainId; symbol := symbol config;
     explorer := explorer config; isTestnet := isTestnet config;
     supportsEIP1559 := supportsEIP1559 config;
     rpcUrls := rpcUrls config; wsUrls := wsUrls config |}.

(** [None] is what [NETWORKS[network]] gives for an identifier the
    registry does not have: [undefined], or an [inherited] member, which
    is no descriptor and has no [chainId]. *)
Definition getNetworkConfig (credentials : EthereumCredentials)
  : option NetworkConfig :=
  if String.eqb (network credentials) "custom" then
    match lookup NETWORKS "custom" with
    | Some custom =>
        Some (withChainId custom (num_or (customChainId credentials) 1))
    | None => None
    end
  else lookup NETWORKS (network credentials).

(** The arguments a [JsonRpcProvider] is constructed with. *)
Record JsonRpcProvider : Type := {
  provider_url : string;
  provider_chainId : Z;
  provider_name : string
}.

(** A signer: the address the library derived and the provider it is
    bound to. *)
Record Wallet : Type := {
  wallet_address : string;
  wallet_provider : JsonRpcProvider
}.

(** The signer constructors of the client library: [new Wallet(key, _)]
    and [HDNodeWallet.fromPhrase(phrase, undefined, path)], each giving
    the signer's address or throwing. *)
Record WalletLib : Type := {
  newWallet : string -> Outcome string;
  fromPhrase : string -> string -> Outcome string
}.

Record EthereumConnection : Type := {
  conn_provider : JsonRpcProvider;
  conn_wallet : option Wallet;
  conn_network : option NetworkConfig;
  conn_networkId : string;
  isReadOnly : bool
}.

(** Reading [chainId] off [undefined] throws a [TypeError].  Off an
    [inherited] member it gives [undefined], and the provider's
    constructor rejects a network without a numeric chain id (the error
    text is the head of the library's message). *)
Definition createProvider (credentials : EthereumCredentials)
  : Outcome JsonRpcProvider :=
  match buildRpcUrl credentials with
  | Threw e => Threw e
  | Returned rpcUrl =>
      match getNetworkConfig credentials with
      | None =>
          if negb (inherited (network credentials)) then
            Threw "Cannot read properties of undefined (reading 'chainId')"
          else Threw "invalid network object name or chainId"
      | Some networkConfig =>
          Returned {| provider_url := rpcUrl;
                      provider_chainId := chainId networkConfig;
                      provider_name := name networkConfig |}
      end
  end.

Definition bound (provider : JsonRpcProvider) (address : Outcome string)
  : Outcome (option Wallet) :=
  match address with
  | Returned a =>
      Returned (Some {| wallet_address := a; wallet_provider := provider |})
  | Threw e => Threw e
  end.

Definition createWallet (library : WalletLib)
    (credentials : EthereumCredentials) (provider : JsonRpcProvider)
  : Outcome (option Wallet) :=
  let walletType := walletType credentials in
  if String.eqb walletType "none" then Returned None
  else if String.eqb walletType "privateKey" then
    match present (privateKey credentials) with
    | None => Threw "Private key is required"
    | Some privateKey =>
        let formattedKey :=
          if startsWith privateKey "0x" then privateKey
          else ("0x" ++ privateKey)%string in
        bound provider (newWallet library formattedKey)
    end
  else if String.eqb walletType "mnemonic" then
    match present (mnemonic credentials) with
    | None => Threw "Mnemonic phrase is required"
    | Some mnemonic =>
        let path :=
          match present (derivationPath credentials) with
          | Some path => path
          | None => "m/44'/60'/0'/0/0"
          end in
        bound provider (fromPhrase library mnemonic path)
    end
  else Threw ("Unknown wallet type: " ++ walletType)%string.

Definition createConnection (library : WalletLib)
    (credentials : EthereumCredentials) : Outcome EthereumConnection :=
  match createProvider credentials with
  | Threw e => Threw e
  | Returned provider =>
      match createWallet library credentials provider with
      | Threw e => Threw e
      | Returned wallet =>
          Returned {| conn_provider := provider;
                      conn_wallet := wallet;
                      conn_network := getNetworkConfig credentials;
                      conn_networkId := network credentials;
                      isReadOnly := match wallet with
                                    | Some _ => false
                                    | None => true
                                    end |}
      end
  end.

(** The decrypted credential object of the host: any field may be
    missing. *)
Record CredentialData : Type := {
  cd_network : option string;
  cd_rpcProvider : option string;
  cd_apiKey : option string;
  cd_customRpcUrl : option string;
  cd_customWsUrl : option string;
  cd_customChainId : option Z;
  cd_walletType : option string;
  cd_privateKey : option string;
  cd_mnemonic : option string;
  cd_derivationPath : option string
}.

(** [(x as string) || d] *)
Definition str_or (x : option string) (d : string) : string :=
  match present x with Some s => s | None => d end.

Definition credentialsOf (credentialData : CredentialData)
  : EthereumCredentials :=
  {| network := str_or (cd_network credentialData) "mainnet";
     rpcProvider := str_or (cd_rpcProvider credentialData) "public";
     apiKey := cd_apiKey credentialData;
     customRpcUrl := cd_customRpcUrl credentialData;
     customWsUrl := cd_customWsUrl credentialData;
     customChainId := cd_customChainId credentialData;
     walletType := str_or (cd_walletType credentialData) "none";
     privateKey := cd_privateKey credentialData;
     mnemonic := cd_mnemonic credentialData;
     derivationPath := cd_derivationPath credentialData |}.

Definition createConnectionFromCredentials (library : WalletLib)
    (credentialData : CredentialData) : Outcome EthereumConnection :=
  createConnection library (credentialsOf credentialData).

End Transport.

(* ====================================================================== *)
(** * Utilities ([src/utils/index.ts]) *)
(* ====================================================================== *)

Module Utils.

Section WithLibrary.
Context {lib : AddressLib}.

Definition isValidAddress (address : string) : bool := isAddress address.

Definition checksumAddress (address : string) : Outcome string :=
  if negb (isAddress address) then
    Threw ("Invalid Ethereum address: " ++ address)%string
  else getAddress address.

End WithLibrary.

(** The library's [ZeroAddress] constant. *)
Definition ZeroAddress : string :=
  "0x0000000000000000000000000000000000000000".

Definition isZeroAddress (address : string) : bool :=
  String.eqb (toLowerCase address) (toLowerCase ZeroAddress).

(** [s.slice(start, end)] for integer arguments; [None] is an omitted
    [end]. *)
Definition slice (s : string) (start : Z) (end_ : option Z) : string :=
  let len := Z.of_nat (String.length s) in
  let clamp := fun i => if i <? 0 then Z.max (len + i) 0 else Z.min i len in
  let from := clamp start in
  let to := match end_ with Some e => clamp e | None => len end in
  String.substring (Z.to_nat from) (Z.to_nat (Z.max (to - from) 0)) s.

Section WithLibrary.
Context {lib : AddressLib}.

Definition shortenAddress (address : string) (chars : Z) : Outcome string :=
  match checksumAddress address with
  | Threw e => Threw e
  | Returned checksummed =>
      Returned (slice checksummed 0 (Some (chars + 2)) ++ "..."
                ++ slice checksummed (- chars) None)%string
  end.

End WithLibrary.

(** The values [toJsonSafe] is applied to: decoded arguments and plain
    data.  An object is the list of its own enumerable entries, in the
    order [Object.entries] gives them, with distinct keys. *)
#[warnings="-register-all"] Inductive Value : Type :=
| VNull
| VUndefined
| VBool (b : bool)
| VNumber (n : Z)
| VString (s : string)
| VBigInt (n : Z)
| VArray (items : list Value)
| VObject (entries : list (string * Value)).

(** [n.toString()] of a bigint: its decimal digits. *)
Definition bigintToString (n : Z) : string :=
  DecimalString.NilZero.string_of_int (Z.to_int n).

(** Assigning [result["__proto__"]] on a plain object sets its prototype
    and creates no entry. *)
Definition assignable (key : string) : bool :=
  negb (String.eqb key "__proto__").

Fixpoint toJsonSafe (value : Value) : Value :=
  match value with
  | VNull => VNull
  | VUndefined => VUndefined
  | VBigInt n => VString (bigintToString n)
  | VArray items => VArray (map toJsonSafe items)
  | VObject entries =>
      VObject
        ((fix assign (entries : list (string * Value)) :=
            match entries with
            | [] => []
            | (key, val) :: rest =>
                if assignable key then (key, toJsonSafe val) :: assign rest
                else assign rest
            end) entries)
  | VBool _ | VNumber _ | VString _ => value
  end.

(** No bigint occurs anywhere in the value. *)
Fixpoint bigintFree (value : Value) : bool :=
  match value with
  | VBigInt _ => false
  | VArray items => forallb bigintFree items
  | VObject entries => forallb (fun entry => bigintFree (snd entry)) entries
  | _ => true
  end.

(** No object of the value has a ["__proto__"] entry. *)
Fixpoint protoFree (value : Value) : bool :=
  match value with
  | VArray items => forallb protoFree items
  | VObject entries =>
      forallb (fun entry => assignable (fst entry) && protoFree (snd entry))
              entries
  | _ => true
  end.

End Utils.

(* ====================================================================== *)
(** * The polling trigger ([nodes/Ethereum/Ethereum.node.ts]) *)
(* ====================================================================== *)

Module Trigger.
Import Utils.

(** The [options] collection of the node: two number fields, without
    bounds.  Their values are taken to be integers; a fractional batch
    size, which the field also admits, has no counterpart here. *)
Record Options : Type := {
  opt_batchSize : option Z;
  opt_startBlock : option Z
}.

(** The node parameters read with [getNodeParameter]. *)
Record Params : Type := {
  event : string;
  options : Options;
  includeBlockDetails : bool;
  includeTransactions : bool;
  contractAddress : string;
  abi : string;
  eventName : string;
  watchAddress : string;
  activityType : string;
  minValue : string;
  tokenAddress : string;
  tokenFilterType : string;
  tokenFilterAddress : string
}.

(** What the host and the ABI library answer during one cycle.
    - [connect]: [getCredentials] and [createConnectionFromCredentials];
    - [now]: [Math.floor(Date.now() / 1000)];
    - [eventFilter abi address name]: [JSON.parse(abi)], the [Contract] and
      [Interface] constructors and [contract.filters[name]?.()], [true]
      when the filter exists;
    - [parseLog abi log]: [iface.parseLog], with the decoded arguments by
      name;
    - [minValueWei s]: [BigInt(Math.floor(parseFloat(s) * 1e18))]. *)
Record Host : Type := {
  connect : Outcome unit;
  now : Z;
  eventFilter : string -> string -> string -> Outcome bool;
  parseLog : string -> Log -> Outcome (option (list (string * string)));
  minValueWei : string -> Outcome Z
}.

(** [getWorkflowStaticData('node')], of which the trigger uses one field. *)
Record StaticData : Type := {
  lastBlock : option Z
}.

(** One element of [returnData]. *)
Inductive Item : Type :=
| ItemBlock (block : Block) (includeTx : bool)
| ItemBlockStub (blockNumber timestamp : Z)
| ItemEvent (log : Log) (eventName : string)
    (parsedArgs : list (string * string))
| ItemActivity (type : string) (tx : Tx) (blockNumber timestamp : Z)
| ItemTokenTransfer (tokenAddress : string) (token : TokenInfo)
    (from to : string) (valueRaw : Z) (log : Log)
| ItemNftTransfer (contractAddress from to : string) (tokenId : Z)
    (log : Log).

(** [for (blockNum = start; ...; blockNum++)] over [count] blocks, the
    pushes of every iteration appended in order. *)
Fixpoint forBlocks (count : nat) (blockNum : Z)
    (body : Z -> Run (list Item)) : Run (list Item) :=
  match count with
  | O => ret []
  | S count' =>
      pushed <- body blockNum ;;
      rest <- forBlocks count' (blockNum + 1) body ;;
      ret (pushed ++ rest)
  end.

(** [for (const x of xs)], likewise. *)
Fixpoint forEach {A} (xs : list A) (body : A -> Run (list Item))
  : Run (list Item) :=
  match xs with
  | [] => ret []
  | x :: xs' =>
      pushed <- body x ;;
      rest <- forEach xs' body ;;
      ret (pushed ++ rest)
  end.

(** Number of iterations of a loop from [fromBlock] to [toBlock]. *)
Definition span (fromBlock toBlock : Z) : nat :=
  Z.to_nat (toBlock - fromBlock + 1).

(** The [fromFilter] and [toFilter] of the transfer branches. *)
Definition transferFilter (filterType filterAddress : string)
  : TransferFilter :=
  if truthy filterAddress then
    if String.eqb filterType "from" then
      {| tf_from := Some filterAddress; tf_to := None |}
    else if String.eqb filterType "to" then
      {| tf_from := None; tf_to := Some filterAddress |}
    else {| tf_from := None; tf_to := None |}
  else {| tf_from := None; tf_to := None |}.

(** The post-filter for ['either']: [true] when the log is skipped. *)
Definition skippedByEither (filterType filterAddress from to : string)
  : bool :=
  if String.eqb filterType "either" && truthy filterAddress then
    let normalizedFilter := toLowerCase filterAddress in
    negb (String.eqb (toLowerCase from) normalizedFilter) &&
    negb (String.eqb (toLowerCase to) normalizedFilter)
  else false.

Section WithLibrary.
Context {lib : AddressLib}.

Definition newBlock (p : Params) (h : Host) (provider : Provider)
    (fromBlock toBlock : Z) : Run (list Item) :=
  let includeDetails := includeBlockDetails p in
  let includeTx := includeTransactions p in
  forBlocks (span fromBlock toBlock) fromBlock (fun blockNum =>
    if includeDetails then
      block <- request (CallGetBlock blockNum includeTx)
                       (getBlock provider blockNum includeTx) ;;
      match block with
      | Some block => ret [ItemBlock block includeTx]
      | None => ret []
      end
    else ret [ItemBlockStub blockNum (now h)]).

Definition contractEvent (p : Params) (h : Host) (provider : Provider)
    (fromBlock toBlock : Z) : Run (list Item) :=
  let contractAddress := contractAddress p in
  let eventName := eventName p in
  found <- lift (eventFilter h (abi p) contractAddress eventName) ;;
  if negb found then
    throw ("Event " ++ eventName ++ " not found in ABI")%string
  else
    logs <- request (CallQueryEvent contractAddress eventName
                                    fromBlock toBlock)
                    (queryEvent provider contractAddress eventName
                                fromBlock toBlock) ;;
    forEach logs (fun log =>
      let parsedArgs :=
        match parseLog h (abi p) log with
        | Returned (Some args) => args
        | Returned None => []
        | Threw _ => []
        end in
      ret [ItemEvent log eventName parsedArgs]).

Definition activityOf (activityType normalizedAddress : string)
    (minValueWei : Z) (block : Block) (blockNum : Z) (tx : Tx)
  : list Item :=
  let isFrom := String.eqb (toLowerCase (tx_from tx)) normalizedAddress in
  let isTo := match tx_to tx with
              | Some to => String.eqb (toLowerCase to) normalizedAddress
              | None => false
              end in
  if negb isFrom && negb isTo then []
  else if String.eqb activityType "incoming" && negb isTo then []
  else if String.eqb activityType "outgoing" && negb isFrom then []
  else if tx_value tx <? minValueWei then []
  else [ItemActivity (if isFrom then "outgoing" else "incoming") tx
                     blockNum (block_timestamp block)].

Definition addressActivity (p : Params) (h : Host) (provider : Provider)
    (fromBlock toBlock : Z) : Run (list Item) :=
  let watchAddress := watchAddress p in
  resolvedAddress <-
    (if negb (startsWith watchAddress "0x") then
       resolved <- request (CallResolveName watchAddress)
                           (resolveName provider watchAddress) ;;
       match Transport.present resolved with
       | None => throw ("Could not resolve ENS: " ++ watchAddress)%string
       | Some resolved => ret resolved
       end
     else ret watchAddress) ;;
  let normalizedAddress := toLowerCase resolvedAddress in
  minValueWei <- lift (minValueWei h (minValue p)) ;;
  forBlocks (span fromBlock toBlock) fromBlock (fun blockNum =>
    block <- request (CallGetBlock blockNum true)
                     (getBlock provider blockNum true) ;;
    match block with
    | None => ret []
    | Some block =>
        ret (flat_map (activityOf (activityType p) normalizedAddress
                                  minValueWei block blockNum)
                      (prefetchedTransactions block))
    end).

Definition tokenTransfer (p : Params) (h : Host) (provider : Provider)
    (fromBlock toBlock : Z) : Run (list Item) :=
  let tokenAddress := tokenAddress p in
  let filterType := tokenFilterType p in
  let filterAddress := tokenFilterAddress p in
  let filter := transferFilter filterType filterAddress in
  logs <- request (CallQueryTransfer ERC20_ABI tokenAddress filter
                                     fromBlock toBlock)
                  (queryTransfer provider ERC20_ABI tokenAddress filter
                                 fromBlock toBlock) ;;
  token <- request (CallTokenInfo tokenAddress)
                   (tokenInfo provider tokenAddress) ;;
  forEach logs (fun log =>
    match tl_args log with
    | None => ret []
    | Some (from, to, value) =>
        if skippedByEither filterType filterAddress from to then ret []
        else
          address <- lift (checksumAddress tokenAddress) ;;
          from' <- lift (checksumAddress from) ;;
          to' <- lift (checksumAddress to) ;;
          ret [ItemTokenTransfer address token from' to' value (tl_log log)]
    end).

Definition nftTransfer (p : Params) (h : Host) (provider : Provider)
    (fromBlock toBlock : Z) : Run (list Item) :=
  let tokenAddress := tokenAddress p in
  let filterType := tokenFilterType p in
  let filterAddress := tokenFilterAddress p in
  let filter := transferFilter filterType filterAddress in
  logs <- request (CallQueryTransfer ERC721_TRANSFER_ABI tokenAddress filter
                                     fromBlock toBlock)
                  (queryTransfer provider ERC721_TRANSFER_ABI tokenAddress
                                 filter fromBlock toBlock) ;;
  forEach logs (fun log =>
    match tl_args log with
    | None => ret []
    | Some (from, to, tokenId) =>
        if skippedByEither filterType filterAddress from to then ret []
        else
          address <- lift (checksumAddress tokenAddress) ;;
          from' <- lift (checksumAddress from) ;;
          to' <- lift (checksumAddress to) ;;
          ret [ItemNftTransfer address from' to' tokenId (tl_log log)]
    end).

(** The body of the [try] block up to the watermark update: the branch of
    the configured event, over [[fromBlock, toBlock]]. *)
Definition runEvent (p : Params) (h : Host) (provider : Provider)
    (fromBlock toBlock : Z) : Run (list Item) :=
  let event := event p in
  if String.eqb event "newBlock" then
    newBlock p h provider fromBlock toBlock
  else if String.eqb event "contractEvent" then
    contractEvent p h provider fromBlock toBlock
  else if String.eqb event "addressActivity" then
    addressActivity p h provider fromBlock toBlock
  else if String.eqb event "tokenTransfer" then
    tokenTransfer p h provider fromBlock toBlock
  else if String.eqb event "nftTransfer" then
    nftTransfer p h provider fromBlock toBlock
  else ret [].

(** [const batchSize = (options.batchSize as number) || 100] *)
Definition batchSize (p : Params) : Z :=
  num_or (opt_batchSize (options p)) 100.

(** The watermark a first run starts from. *)
Definition initialLastBlock (p : Params) (currentBlock : Z) : Z :=
  let startBlock := num_or (opt_startBlock (options p)) 0 in
  if 0 <? startBlock then startBlock - 1 else currentBlock - 1.

(** One poll cycle: the static data it leaves, the requests it made and
    what it returned ([None] is [null]) or threw. *)
Definition poll (p : Params) (h : Host) (provider : Provider)
    (staticData : StaticData)
  : StaticData * Run (option (list Item)) :=
  match connect h with
  | Threw e => (staticData, throw e)
  | Returned _ =>
  let batchSize := batchSize p in
  match getBlockNumber provider with
  | Threw e => (staticData, request CallGetBlockNumber (Threw e))
  | Returned currentBlock =>
  let '(lastBlock, staticData) :=
    match lastBlock staticData with
    | None =>
        let lastBlock := initialLastBlock p currentBlock in
        (lastBlock, {| lastBlock := Some lastBlock |})
    | Some lastBlock => (lastBlock, staticData)
    end in
  if currentBlock <=? lastBlock then
    (staticData, request CallGetBlockNumber (Returned None))
  else
    let fromBlock := lastBlock + 1 in
    let toBlock := Z.min currentBlock (fromBlock + batchSize - 1) in
    let body := runEvent p h provider fromBlock toBlock in
    let staticData :=
      match result body with
      | Returned _ => {| lastBlock := Some toBlock |}
      | Threw _ => {| lastBlock := Some toBlock |}
      end in
    (staticData,
     _ <- request CallGetBlockNumber (Returned currentBlock) ;;
     returnData <- body ;;
     match returnData with
     | [] => ret None
     | _ :: _ => ret (Some returnData)
     end)
  end
  end.

(** What [poll] returns to the host once the event branch has run. *)
Definition delivered (currentBlock : Z) (body : Run (list Item))
  : Run (option (list Item)) :=
  _ <- request CallGetBlockNumber (Returned currentBlock) ;;
  returnData <- body ;;
  match returnData with
  | [] => ret None
  | _ :: _ => ret (Some returnData)
  end.

(** The watermark a cycle works from: the stored one, or the seed of a
    first run. *)
Definition startingWatermark (p : Params) (sd : StaticData)
    (currentBlock : Z) : Z :=
  match lastBlock sd with
  | Some w => w
  | None => initialLastBlock p currentBlock
  end.

(** The value [checksumAddress] returns on an address it accepts. *)
Definition checksummed (address : string) : string :=
  match checksumAddress address with
  | Returned a => a
  | Threw _ => address
  end.

(** [checksumAddress] accepts the decoded parties of the log. *)
Definition partiesAccepted (log : TransferLog) : bool :=
  match tl_args log with
  | Some (from, to, _) =>
      returns (checksumAddress from) && returns (checksumAddress to)
  | None => true
  end.

(** One cycle of the trigger: the parameters it is configured with and
    what the host and the endpoint answer during it. *)
Record Cycle : Type := {
  cy_params : Params;
  cy_host : Host;
  cy_provider : Provider
}.

(** The trigger run over successive cycles: the watermark left by each. *)
Fixpoint watermarks (cycles : list Cycle) (staticData : StaticData)
  : list (option Z) :=
  match cycles with
  | [] => []
  | c :: rest =>
      let staticData' :=
        fst (poll (cy_params c) (cy_host c) (cy_provider c) staticData) in
      lastBlock staticData' :: watermarks rest staticData'
  end.

End WithLibrary.

(** The order on watermarks: an unset watermark is below every value, and
    a set one is never followed by an unset one. *)
Definition watermark_le (a b : option Z) : Prop :=
  match a, b with
  | None, _ => True
  | Some _, None => False
  | Some x, Some y => x <= y
  end.

(** The specification's reading of the ['either'] filter: the decoded
    [from] or [to] of the log equals the filter address, letter case
    aside. *)
Definition matchesEither (filterAddress : string) (log : TransferLog)
  : bool :=
  match tl_args log with
  | Some (from, to, _) =>
      String.eqb (toLowerCase from) (toLowerCase filterAddress) ||
      String.eqb (toLowerCase to) (toLowerCase filterAddress)
  | None => false
  end.

(** The ABI each transfer branch builds its contract object with. *)
Definition transferAbiOf (event : string) : TransferAbi :=
  if String.eqb event "tokenTransfer" then ERC20_ABI
  else ERC721_TRANSFER_ABI.

(** The requests of a transfer branch after the log query. *)
Definition transferLookups (event tokenAddress : string) : list Call :=
  if String.eqb event "tokenTransfer" then [CallTokenInfo tokenAddress]
  else [].

(** The log an emitted transfer item reports. *)
Definition item_log (i : Item) : option Log :=
  match i with
  | ItemTokenTransfer _ _ _ _ _ log => Some log
  | ItemNftTransfer _ _ _ _ log => Some log
  | ItemEvent log _ _ => Some log
  | _ => None
  end.

(** The items a transfer branch pushes for one log when [matchesEither]
    selects the logs: [emit] builds the item of the branch. *)
Definition eitherItems {lib : AddressLib}
    (emit : string -> string -> Z -> Log -> Item)
    (filterAddress : string) (log : TransferLog) : list Item :=
  match tl_args log with
  | Some (from, to, value) =>
      if matchesEither filterAddress log
      then [emit (checksummed from) (checksummed to) value (tl_log log)]
      else []
  | None => []
  end.

(** The items a cycle hands to the host: none when it returns [null] or
    throws. *)
Definition itemsOf (run : Run (option (list Item))) : list Item :=
  match result run with
  | Returned (Some items) => items
  | Returned None => []
  | Threw _ => []
  end.

(** Everything the trigger hands to the host over successive cycles. *)
Fixpoint deliveries {lib : AddressLib} (cycles : list Cycle)
    (staticData : StaticData) : list Item :=
  match cycles with
  | [] => []
  | c :: rest =>
      let cycle := poll (cy_params c) (cy_host c) (cy_provider c)
                        staticData in
      itemsOf (snd cycle) ++ deliveries rest (fst cycle)
  end.


(** The item the new-block branch pushes for one fetched block. *)
Definition fetchedBlock (provider : Provider) (includeTx : bool)
    (blockNum : Z) : list Item :=
  match getBlock provider blockNum includeTx with
  | Returned (Some block) => [ItemBlock block includeTx]
  | Returned None => []
  | Threw _ => []
  end.

(** A log the library decoded. *)
Definition decoded (log : TransferLog) : bool :=
  match tl_args log with Some _ => true | None => false end.

(** The item a transfer branch pushes for a decoded log. *)
Definition decodedItems {lib : AddressLib}
    (emit : string -> string -> Z -> Log -> Item) (log : TransferLog) : list Item :=
  match tl_args log with
  | Some (from, to, value) =>
      [emit (checksummed from) (checksummed to) value (tl_log log)]
  | None => []
  end.

End Trigger.

(* ====================================================================== *)
(** * Concrete configurations, hosts and endpoints *)
(* ====================================================================== *)

Module Scenario.
Import Types Trigger.

(** New-block polling that emits the [{blockNumber, timestamp}] stubs. *)
Definition blockStubs (batchSize startBlock : option Z) : Params :=
  {| event := "newBlock";
     options := {| opt_batchSize := batchSize;
                   opt_startBlock := startBlock |};
     includeBlockDetails := false;
     includeTransactions := false;
     contractAddress := "";
     abi := "[]";
     eventName := "";
     watchAddress := "";
     activityType := "all";
     minValue := "0";
     tokenAddress := "";
     tokenFilterType := "all";
     tokenFilterAddress := "" |}.

Definition transfers (event tokenAddress filterType filterAddress : string)
  : Params :=
  {| event := event;
     options := {| opt_batchSize := None; opt_startBlock := None |};
     includeBlockDetails := true;
     includeTransactions := false;
     contractAddress := "";
     abi := "[]";
     eventName := "";
     watchAddress := "";
     activityType := "all";
     minValue := "0";
     tokenAddress := tokenAddress;
     tokenFilterType := filterType;
     tokenFilterAddress := filterAddress |}.

(** A host whose connection succeeds, at a fixed clock. *)
Definition host : Host :=
  {| connect := Returned tt;
     now := 1700000000;
     eventFilter := fun _ _ _ => Returned true;
     parseLog := fun _ _ => Returned None;
     minValueWei := fun _ => Returned 0 |}.

(** An endpoint at chain head [head] that answers the transfer queries
    with [logs] and has no blocks, names or event logs to report. *)
Definition endpoint (head : Z) (logs : list TransferLog) : Provider :=
  {| getBlockNumber := Returned head;
     getBlock := fun _ _ => Returned None;
     resolveName := fun _ => Returned None;
     queryEvent := fun _ _ _ _ => Returned [];
     queryTransfer := fun _ _ _ _ _ => Returned logs;
     tokenInfo := fun _ =>
       Returned {| token_name := "Dai Stablecoin"; token_symbol := "DAI";
                   token_decimals := 18 |} |}.

(** An endpoint whose log queries fail. *)
Definition failingEndpoint (head : Z) : Provider :=
  {| getBlockNumber := Returned head;
     getBlock := fun _ _ => Threw "missing response";
     resolveName := fun _ => Threw "missing response";
     queryEvent := fun _ _ _ _ => Threw "missing response";
     queryTransfer := fun _ _ _ _ _ => Threw "missing response";
     tokenInfo := fun _ => Threw "missing response" |}.

Definition credentials (network rpcProvider : string)
    (apiKey customRpcUrl : option string) : EthereumCredentials :=
  {| network := network;
     rpcProvider := rpcProvider;
     apiKey := apiKey;
     customRpcUrl := customRpcUrl;
     customWsUrl := None;
     customChainId := None;
     walletType := "none";
     privateKey := None;
     mnemonic := None;
     derivationPath := None |}.

(** The address of a token contract. *)
Definition dai : string := "0x6B175474E89094C44Da98b954EedeAC495271d0F".

(** New-block stubs with the default options; the endpoint answers. *)
Definition steady (head : Z) : Cycle :=
  {| cy_params := blockStubs None None; cy_host := host;
     cy_provider := endpoint head [] |}.

(** A transfer poll whose log query throws. *)
Definition failing (head : Z) : Cycle :=
  {| cy_params := transfers "tokenTransfer" dai "all" "";
     cy_host := host;
     cy_provider := failingEndpoint head |}.

(** New-block stubs configured with a batch size of -5. *)
Definition negativeBatch (head : Z) : Cycle :=
  {| cy_params := blockStubs (Some (-5)) None; cy_host := host;
     cy_provider := endpoint head [] |}.

Definition mixedCycles : list Cycle :=
  [steady 1050; steady 1050; failing 2000; steady 2000].

Definition transferLog (index : Z) (args : option (string * string * Z))
  : TransferLog :=
  {| tl_log := {| log_blockNumber := 1000;
                  log_transactionHash := "0x5c504ed432cb51138bcf09aa5e8a410dd4a1e204ef84bfed1be16dfba1b22060";
                  log_index := index;
                  log_topics := [];
                  log_data := "0x" |};
     tl_args := args |}.

(** Scenario 4 of the specification: a transfer from the watched address,
    a transfer between two other addresses, then an undecoded log and a
    transfer to the watched address. *)
Definition scenario4_logs : list TransferLog :=
  [ transferLog 0 (Some ("0xABC0000000000000000000000000000000000ABC",
                         "0xDEF0000000000000000000000000000000000DEF", 5));
    transferLog 1 (Some ("0x1110000000000000000000000000000000000111",
                         "0x2220000000000000000000000000000000000222", 7));
    transferLog 2 None;
    transferLog 3 (Some ("0x1110000000000000000000000000000000000111",
                         "0xabc0000000000000000000000000000000000abc", 9)) ].

Definition scenario4_params (event : string) : Params :=
  transfers event dai "either" "0xabc0000000000000000000000000000000000abc".

(** The identifiers of the registry other than ["custom"]. *)
Definition namedNetworks : list string :=
  filter (fun n => negb (String.eqb n "custom")) (map fst NETWORKS).

(** The named networks whose descriptor has an [ankr] hostname template. *)
Definition ankrNetworks : list (string * string) :=
  flat_map (fun entry =>
              match ankr (rpcUrls (snd entry)) with
              | Some template => [(fst entry, template)]
              | None => []
              end) NETWORKS.

(** A signer library that accepts a [0x] and 64 further characters as a
    private key, and any phrase. *)
Definition walletLib : Transport.WalletLib :=
  {| Transport.newWallet := fun key =>
       if (String.length key =? 66)%nat
       then Returned "0xFCAd0B19bB29D4674531d6f115237E16AfCE377c"
       else Threw "invalid private key";
     Transport.fromPhrase := fun _ _ =>
       Returned "0x9858EfFD232B4033E47d90003D41EC34EcaEda94" |}.

Definition privateKey64 : string :=
  "0123456789012345678901234567890123456789012345678901234567890123".

(** Credentials that hold a private key. *)
Definition keyCredentials (key : string) : EthereumCredentials :=
  {| network := "sepolia";
     rpcProvider := "public";
     apiKey := None;
     customRpcUrl := None;
     customWsUrl := None;
     customChainId := None;
     walletType := "privateKey";
     privateKey := Some key;
     mnemonic := None;
     derivationPath := None |}.

(** Credentials that hold a mnemonic. *)
Definition phraseCredentials (path : option string) : EthereumCredentials :=
  {| network := "sepolia";
     rpcProvider := "public";
     apiKey := None;
     customRpcUrl := None;
     customWsUrl := None;
     customChainId := None;
     walletType := "mnemonic";
     privateKey := None;
     mnemonic :=
       Some "test test test test test test test test test test test junk";
     derivationPath := path |}.

(** A credential object with nothing filled in. *)
Definition emptyCredentialData : Transport.CredentialData :=
  {| Transport.cd_network := None;
     Transport.cd_rpcProvider := None;
     Transport.cd_apiKey := None;
     Transport.cd_customRpcUrl := None;
     Transport.cd_customWsUrl := None;
     Transport.cd_customChainId := None;
     Transport.cd_walletType := None;
     Transport.cd_privateKey := None;
     Transport.cd_mnemonic := None;
     Transport.cd_derivationPath := None |}.

(** An address in the ICAP notation: no hex address, no ['.']. *)
Definition icapAddress : string := "XE7338O073KYGTWWZN0F2WZ0R8PX5ZPPZS".

Definition watched : string := "0xABC0000000000000000000000000000000000ABC".
Definition other : string := "0x1110000000000000000000000000000000000111".

Definition transaction (hash from : string) (to : option string)
    (value : Z) : Tx :=
  {| tx_hash := hash; tx_from := from; tx_to := to; tx_value := value |}.

(** Block 1000: a payment to the watched address, one from it below the
    minimum, a transfer of the address to itself, and an unrelated one. *)
Definition block1000 : Block :=
  {| block_number := 1000;
     block_timestamp := 1700000000;
     prefetchedTransactions :=
       [ transaction "0x01" other (Some watched) 2000000000000000000;
         transaction "0x02" watched (Some other) 1;
         transaction "0x03" watched (Some watched) 1000000000000000000;
         transaction "0x04" other None 3000000000000000000 ] |}.

(** An endpoint that has block 1000 and no other. *)
Definition blockEndpoint (head : Z) : Provider :=
  {| getBlockNumber := Returned head;
     getBlock := fun n _ =>
       if n =? 1000 then Returned (Some block1000) else Returned None;
     resolveName := fun _ => Returned None;
     queryEvent := fun _ _ _ _ =>
       Returned [tl_log (transferLog 0 None); tl_log (transferLog 1 None)];
     queryTransfer := fun _ _ _ _ _ => Returned [];
     tokenInfo := fun _ => Threw "missing response" |}.

(** A host whose ABI library cannot parse any log, with a minimum value
    of half an ether. *)
Definition strictHost : Host :=
  {| connect := Returned tt;
     now := 1700000000;
     eventFilter := fun _ _ name => Returned (String.eqb name "Transfer");
     parseLog := fun _ _ => Threw "no matching event";
     minValueWei := fun _ => Returned 500000000000000000 |}.

Definition activityParams (activityType : string) : Params :=
  {| event := "addressActivity";
     options := {| opt_batchSize := None; opt_startBlock := None |};
     includeBlockDetails := true;
     includeTransactions := false;
     contractAddress := dai;
     abi := "[]";
     eventName := "Transfer";
     watchAddress := watched;
     activityType := activityType;
     minValue := "0.5";
     tokenAddress := "";
     tokenFilterType := "all";
     tokenFilterAddress := "" |}.

(** New-block polling with block details. *)
Definition blockDetails : Params :=
  {| event := "newBlock";
     options := {| opt_batchSize := None; opt_startBlock := None |};
     includeBlockDetails := true;
     includeTransactions := false;
     contractAddress := "";
     abi := "[]";
     eventName := "";
     watchAddress := "";
     activityType := "all";
     minValue := "0";
     tokenAddress := "";
     tokenFilterType := "all";
     tokenFilterAddress := "" |}.

(** The provider of a public sepolia connection. *)
Definition sepoliaProvider : Transport.JsonRpcProvider :=
  {| Transport.provider_url := "https://rpc.sepolia.org";
     Transport.provider_chainId := 11155111;
     Transport.provider_name := "Sepolia Testnet" |}.

(** The connection of [keyCredentials privateKey64]. *)
Definition keyConnection : Transport.EthereumConnection :=
  {| Transport.conn_provider := sepoliaProvider;
     Transport.conn_wallet :=
       Some {| Transport.wallet_address :=
                 "0xFCAd0B19bB29D4674531d6f115237E16AfCE377c";
               Transport.wallet_provider := sepoliaProvider |};
     Transport.conn_network := lookup NETWORKS "sepolia";
     Transport.conn_networkId := "sepolia";
     Transport.isReadOnly := false |}.

(** Stub-mode cycles against a head that moves up, stalls, falls back
    and jumps ahead. *)
Definition stubCycles : list Cycle :=
  [steady 1050; steady 1050; steady 1040; steady 1300].

(** What an incoming-only watch of [watched] emits for block 1000. *)
Definition incomingItems : list Item :=
  [ ItemActivity "incoming"
      (transaction "0x01" other (Some watched) 2000000000000000000)
      1000 1700000000;
    ItemActivity "outgoing"
      (transaction "0x03" watched (Some watched) 1000000000000000000)
      1000 1700000000 ].

End Scenario.

(* ====================================================================== *)
(** * Properties of the block cursor *)
(* ====================================================================== *)

Section Cursor.
Import Trigger.
Context {lib : AddressLib}.

Lemma poll_idle p h provider sd u currentBlock :
  connect h = Returned u ->
  getBlockNumber provider = Returned currentBlock ->
  currentBlock <= startingWatermark p sd currentBlock ->
  poll p h provider sd =
    ({| lastBlock := Some (startingWatermark p sd currentBlock) |},
     request CallGetBlockNumber (Returned None)).
Proof.
  intros Hc Hb Hidle. unfold poll, startingWatermark in *.
  rewrite Hc, Hb.
  destruct sd as [[w|]]; cbn [lastBlock] in *;
    (destruct (Z.leb_spec currentBlock
                 (match Some w with Some x => x | None => 0 end)) ||
     destruct (Z.leb_spec currentBlock (initialLastBlock p currentBlock)));
    cbn in *; try reflexivity; lia.
Qed.

Lemma poll_processing p h provider sd u currentBlock :
  connect h = Returned u ->
  getBlockNumber provider = Returned currentBlock ->
  startingWatermark p sd currentBlock < currentBlock ->
  let fromBlock := startingWatermark p sd currentBlock + 1 in
  let toBlock := Z.min currentBlock (fromBlock + batchSize p - 1) in
  poll p h provider sd =
    ({| lastBlock := Some toBlock |},
     delivered currentBlock (runEvent p h provider fromBlock toBlock)).
Proof.
  intros Hc Hb Hnew. unfold poll, startingWatermark in *.
  rewrite Hc, Hb.
  destruct sd as [[w|]]; cbn [lastBlock] in *.
  - destruct (Z.leb_spec currentBlock w); [lia|].
    cbn zeta.
    destruct (result (runEvent p h provider (w + 1)
               (Z.min currentBlock (w + 1 + batchSize p - 1))));
      reflexivity.
  - destruct (Z.leb_spec currentBlock (initialLastBlock p currentBlock));
      [lia|].
    cbn zeta.
    destruct (result (runEvent p h provider
               (initialLastBlock p currentBlock + 1)
               (Z.min currentBlock
                  (initialLastBlock p currentBlock + 1 + batchSize p - 1))));
      reflexivity.
Qed.

Lemma result_delivered_threw currentBlock body e :
  result body = Threw e ->
  result (delivered currentBlock body) = Threw e.
Proof.
  intros H. unfold delivered, bind, request. cbn. rewrite H. reflexivity.
Qed.



Lemma poll_connect_threw p h provider sd e :
  connect h = Threw e -> fst (poll p h provider sd) = sd.
Proof. intros H. unfold poll. rewrite H. reflexivity. Qed.

Lemma poll_head_threw p h provider sd u e :
  connect h = Returned u -> getBlockNumber provider = Threw e ->
  fst (poll p h provider sd) = sd.
Proof. intros H H'. unfold poll. rewrite H, H'. reflexivity. Qed.

Lemma watermark_le_refl a : watermark_le a a.
Proof. destruct a; cbn; [lia | exact I]. Qed.

Lemma watermark_le_trans a b c :
  watermark_le a b -> watermark_le b c -> watermark_le a c.
Proof. destruct a, b, c; cbn; try tauto; lia. Qed.

(** One cycle with a batch size of at least one block does not lower the
    watermark, whichever way the cycle ends. *)
Lemma poll_watermark_le p h provider sd :
  1 <= batchSize p ->
  watermark_le (lastBlock sd) (lastBlock (fst (poll p h provider sd))).
Proof.
  intros Hb.
  destruct (connect h) as [u|e] eqn:Hc.
  2:{ rewrite (poll_connect_threw _ _ _ _ _ Hc). apply watermark_le_refl. }
  destruct (getBlockNumber provider) as [cur|e] eqn:Hh.
  2:{ rewrite (poll_head_threw _ _ _ _ _ _ Hc Hh). apply watermark_le_refl. }
  destruct (Z_le_gt_dec cur (startingWatermark p sd cur)) as [Hidle|Hnew].
  - rewrite (poll_idle _ _ _ _ _ _ Hc Hh Hidle).
    unfold startingWatermark. destruct (lastBlock sd); cbn; [lia | exact I].
  - rewrite (poll_processing p h provider sd u cur Hc Hh); [|lia].
    cbn [fst lastBlock]. unfold startingWatermark in *.
    destruct (lastBlock sd) as [w|]; cbn; [lia | exact I].
Qed.

End Cursor.

Section CursorProperties.
Import Trigger.
Context {lib : AddressLib}.

(** C1 (as amended).  Over any sequence of poll cycles whose batch size is
    at least one block - idle cycles, cycles that succeed and cycles whose
    event query throws alike - the watermark never decreases: of any two
    watermarks in the sequence, the earlier is below or equal to the later,
    and a watermark that is set stays set. *)
Theorem C1_watermark_never_decreases (cycles : list Cycle)
    (sd : StaticData) :
  Forall (fun c => 1 <= batchSize (cy_params c)) cycles ->
  StronglySorted watermark_le (lastBlock sd :: watermarks cycles sd).
Proof.
  intros Hall. apply Sorted_StronglySorted.
  - intros a b c. apply watermark_le_trans.
  - revert sd. induction Hall as [|c cycles Hc _ IH]; intros sd; cbn.
    + repeat constructor.
    + constructor.
      * apply IH.
      * constructor. apply poll_watermark_le, Hc.
Qed.

(** C2.  When the event query of a processing cycle throws, the cycle
    leaves the watermark at [toBlock] - the end of the computed range, not
    the chain head - and the error reaches the caller. *)
Theorem C2_error_advances_to_toBlock p h provider sd u currentBlock w e :
  connect h = Returned u ->
  getBlockNumber provider = Returned currentBlock ->
  lastBlock sd = Some w ->
  w < currentBlock ->
  let fromBlock := w + 1 in
  let toBlock := Z.min currentBlock (fromBlock + batchSize p - 1) in
  result (runEvent p h provider fromBlock toBlock) = Threw e ->
  lastBlock (fst (poll p h provider sd)) = Some toBlock /\
  result (snd (poll p h provider sd)) = Threw e.
Proof.
  intros Hc Hh Hw Hnew fromBlock toBlock Hthrow.
  assert (Hs : startingWatermark p sd currentBlock = w)
    by (unfold startingWatermark; rewrite Hw; reflexivity).
  rewrite (poll_processing p h provider sd u currentBlock Hc Hh);
    rewrite Hs; [|exact Hnew].
  split; [reflexivity|].
  apply result_delivered_threw, Hthrow.
Qed.

(** C3.  A processing cycle runs the event branch over
    [[watermark + 1, min(head, watermark + batchSize)]] and leaves the
    watermark at the end of that range; when the head is more than
    [batchSize] blocks ahead the watermark advances by exactly [batchSize],
    and from watermark 999 with head 1050 and batch size 100 the range is
    [[1000, 1050]] and the watermark becomes 1050. *)
Theorem C3_processing_range p h provider sd u currentBlock w :
  connect h = Returned u ->
  getBlockNumber provider = Returned currentBlock ->
  lastBlock sd = Some w ->
  w < currentBlock ->
  let fromBlock := w + 1 in
  let toBlock := Z.min currentBlock (fromBlock + batchSize p - 1) in
  poll p h provider sd =
    ({| lastBlock := Some toBlock |},
     delivered currentBlock (runEvent p h provider fromBlock toBlock)) /\
  (currentBlock - w > batchSize p -> toBlock = w + batchSize p) /\
  (w = 999 -> currentBlock = 1050 -> batchSize p = 100 ->
   fromBlock = 1000 /\ toBlock = 1050).
Proof.
  intros Hc Hh Hw Hnew fromBlock toBlock.
  assert (Hs : startingWatermark p sd currentBlock = w)
    by (unfold startingWatermark; rewrite Hw; reflexivity).
  split; [|split].
  - rewrite (poll_processing p h provider sd u currentBlock Hc Hh);
      rewrite Hs; [reflexivity | exact Hnew].
  - subst fromBlock toBlock. lia.
  - subst fromBlock toBlock. lia.
Qed.

(** C4.  When the chain head is at or below the watermark the cycle
    returns [null] and leaves the static data as it found it. *)
Theorem C4_idle_cycle p h provider sd u currentBlock w :
  connect h = Returned u ->
  getBlockNumber provider = Returned currentBlock ->
  lastBlock sd = Some w ->
  currentBlock <= w ->
  poll p h provider sd =
    (sd, {| calls := [CallGetBlockNumber]; result := Returned None |}).
Proof.
  intros Hc Hh Hw Hidle.
  assert (Hs : startingWatermark p sd currentBlock = w)
    by (unfold startingWatermark; rewrite Hw; reflexivity).
  rewrite (poll_idle p h provider sd u currentBlock Hc Hh);
    rewrite Hs; [|exact Hidle].
  destruct sd as [lb]. cbn in Hw. subst lb. reflexivity.
Qed.

(** C10 (as amended).  On the first poll a start block that is unset, 0 or
    negative is treated as not supplied and the watermark is seeded to
    the chain head minus one; only a start block above 0 seeds it to the
    start block minus one.  The first cycle works from that seed, so its
    range begins at the start block (at least 1) or at the chain head, and
    it begins above block 0 whenever the chain head is above block 0. *)
Theorem C10_first_poll_seed p h provider u currentBlock :
  connect h = Returned u ->
  getBlockNumber provider = Returned currentBlock ->
  let seed := initialLastBlock p currentBlock in
  let first := poll p h provider {| lastBlock := None |} in
  (opt_startBlock (options p) = None -> seed = currentBlock - 1) /\
  (forall s, opt_startBlock (options p) = Some s ->
     (s <= 0 -> seed = currentBlock - 1) /\ (0 < s -> seed = s - 1)) /\
  (currentBlock <= seed ->
     first = ({| lastBlock := Some seed |},
              request CallGetBlockNumber (Returned None))) /\
  (seed < currentBlock ->
     first =
       ({| lastBlock :=
             Some (Z.min currentBlock (seed + 1 + batchSize p - 1)) |},
        delivered currentBlock
          (runEvent p h provider (seed + 1)
             (Z.min currentBlock (seed + 1 + batchSize p - 1))))) /\
  (0 < currentBlock -> 0 < seed + 1).
Proof.
  intros Hc Hh seed first. subst seed first.
  unfold initialLastBlock, num_or.
  repeat split.
  - intros ->. reflexivity.
  - intros Hs. rewrite H.
    destruct (Z.eqb_spec s 0); [reflexivity|].
    destruct (Z.ltb_spec 0 s); [lia | reflexivity].
  - intros Hs. rewrite H.
    destruct (Z.eqb_spec s 0); [lia|].
    destruct (Z.ltb_spec 0 s); [reflexivity | lia].
  - intros Hidle.
    exact (poll_idle p h provider {| lastBlock := None |} u currentBlock
             Hc Hh Hidle).
  - intros Hnew.
    exact (poll_processing p h provider {| lastBlock := None |} u
             currentBlock Hc Hh Hnew).
  - intros Hpos.
    destruct (opt_startBlock (options p)) as [s|].
    + destruct (Z.eqb_spec s 0).
      * cbn. lia.
      * destruct (Z.ltb_spec 0 s); lia.
    + cbn. lia.
Qed.

End CursorProperties.

(* ---------------------------------------------------------------------- *)
(** ** The cursor on concrete runs *)
(* ---------------------------------------------------------------------- *)

Module CursorRuns.
Import Trigger Scenario.

Example mixedCycles_watermarks :
  watermarks mixedCycles {| lastBlock := Some 999 |} =
  [Some 1050; Some 1050; Some 1150; Some 1250].
Proof. vm_compute. reflexivity. Qed.

Lemma C1_witness :
  Forall (fun c => 1 <= batchSize (cy_params c)) mixedCycles /\
  StronglySorted watermark_le
    (Some 999 :: watermarks mixedCycles {| lastBlock := Some 999 |}).
Proof.
  assert (H : Forall (fun c => 1 <= batchSize (cy_params c)) mixedCycles)
    by (repeat constructor; vm_compute; discriminate).
  split; [exact H|].
  exact (C1_watermark_never_decreases mixedCycles
           {| lastBlock := Some 999 |} H).
Defined.

(** C1 as stated, without a bound on the batch size, fails: with
    [batchSize = -5], watermark 10 and chain head 20 the cycle computes
    [toBlock = min(20, 11 - 5 - 1) = 5] and stores it. *)
Lemma C1_counterexample :
  watermarks [negativeBatch 20] {| lastBlock := Some 10 |} = [Some 5] /\
  ~ StronglySorted watermark_le
      (Some 10 :: watermarks [negativeBatch 20] {| lastBlock := Some 10 |}).
Proof.
  split; [vm_compute; reflexivity|].
  intros H. inversion H as [|a l _ Hall]; subst.
  inversion Hall as [|x l' Hle _]; subst.
  vm_compute in Hle. destruct Hle. reflexivity.
Qed.

Lemma C2_witness :
  connect host = Returned tt /\
  getBlockNumber (failingEndpoint 2000) = Returned 2000 /\
  lastBlock {| lastBlock := Some 999 |} = Some 999 /\
  999 < 2000 /\
  result (runEvent (cy_params (failing 2000)) host (failingEndpoint 2000)
            1000 1099)
    = Threw "missing response" /\
  lastBlock (fst (poll (cy_params (failing 2000)) host
                       (failingEndpoint 2000) {| lastBlock := Some 999 |}))
    = Some 1099 /\
  result (snd (poll (cy_params (failing 2000)) host
                    (failingEndpoint 2000) {| lastBlock := Some 999 |}))
    = Threw "missing response".
Proof.
  do 5 (split; [vm_compute; reflexivity|]).
  exact (C2_error_advances_to_toBlock (cy_params (failing 2000)) host
           (failingEndpoint 2000) {| lastBlock := Some 999 |} tt 2000 999
           "missing response" eq_refl eq_refl eq_refl eq_refl eq_refl).
Defined.

Lemma C3_witness :
  connect host = Returned tt /\
  getBlockNumber (endpoint 1050 []) = Returned 1050 /\
  lastBlock {| lastBlock := Some 999 |} = Some 999 /\
  999 < 1050 /\
  poll (blockStubs None None) host (endpoint 1050 [])
       {| lastBlock := Some 999 |} =
    ({| lastBlock := Some 1050 |},
     delivered 1050
       (runEvent (blockStubs None None) host (endpoint 1050 [])
                 1000 1050)).
Proof.
  do 4 (split; [vm_compute; reflexivity|]).
  exact (proj1 (C3_processing_range (blockStubs None None) host
                  (endpoint 1050 []) {| lastBlock := Some 999 |} tt
                  1050 999 eq_refl eq_refl eq_refl eq_refl)).
Defined.

(** Scenario 3 of the specification, run: 51 stubs, blocks 1000 to 1050. *)
Example scenario3_blocks :
  let run := snd (poll (blockStubs None None) host (endpoint 1050 [])
                       {| lastBlock := Some 999 |}) in
  result run =
    Returned (Some (map (fun n => ItemBlockStub (1000 + Z.of_nat n) (now host))
                        (seq 0 51))).
Proof. vm_compute. reflexivity. Qed.

Lemma C4_witness :
  connect host = Returned tt /\
  getBlockNumber (endpoint 1050 []) = Returned 1050 /\
  lastBlock {| lastBlock := Some 1050 |} = Some 1050 /\
  1050 <= 1050 /\
  poll (blockStubs None None) host (endpoint 1050 [])
       {| lastBlock := Some 1050 |} =
    ({| lastBlock := Some 1050 |},
     {| calls := [CallGetBlockNumber]; result := Returned None |}).
Proof.
  do 3 (split; [vm_compute; reflexivity|]).
  split; [lia|].
  refine (C4_idle_cycle (blockStubs None None) host (endpoint 1050 [])
            {| lastBlock := Some 1050 |} tt 1050 1050
            eq_refl eq_refl eq_refl _).
  lia.
Defined.

Lemma C10_witness :
  connect host = Returned tt /\
  getBlockNumber (endpoint 1050 []) = Returned 1050 /\
  initialLastBlock (blockStubs None (Some 0)) 1050 = 1049 /\
  poll (blockStubs None (Some 0)) host (endpoint 1050 [])
       {| lastBlock := None |} =
    ({| lastBlock := Some 1050 |},
     delivered 1050
       (runEvent (blockStubs None (Some 0)) host (endpoint 1050 [])
                 1050 1050)).
Proof.
  do 3 (split; [vm_compute; reflexivity|]).
  refine (proj1 (proj2 (proj2 (proj2
            (C10_first_poll_seed (blockStubs None (Some 0)) host
               (endpoint 1050 []) tt 1050 eq_refl eq_refl)))) _).
  vm_compute; reflexivity.
Defined.

(** C10 as stated fails in its last clause: on a chain whose head is block
    0, the first poll of a trigger configured with start block 0 seeds the
    watermark to -1 and processes block 0. *)
Lemma C10_counterexample :
  poll (blockStubs None (Some 0)) host (endpoint 0 [])
       {| lastBlock := None |} =
    ({| lastBlock := Some 0 |},
     {| calls := [CallGetBlockNumber];
        result := Returned (Some [ItemBlockStub 0 (now host)]) |}).
Proof. vm_compute. reflexivity. Qed.

End CursorRuns.

(* ====================================================================== *)
(** * Properties of the endpoint resolver *)
(* ====================================================================== *)

Module KeccakVectors.
Local Open Scope N_scope.

Example keccak256_empty :
  Keccak.keccak256 [] =
  [ 0xc5; 0xd2; 0x46; 0x01; 0x86; 0xf7; 0x23; 0x3c;
    0x92; 0x7e; 0x7d; 0xb2; 0xdc; 0xc7; 0x03; 0xc0;
    0xe5; 0x00; 0xb6; 0x53; 0xca; 0x82; 0x27; 0x3b;
    0x7b; 0xfa; 0xd8; 0x04; 0x5d; 0x85; 0xa4; 0x70 ].
Proof. vm_compute. reflexivity. Qed.

End KeccakVectors.

Module Endpoint.
Import Types Transport Scenario.

Example scenario1_sepolia_public :
  buildRpcUrl (credentials "sepolia" "public" None None) =
  Returned "https://rpc.sepolia.org".
Proof. reflexivity. Qed.

Example scenario2_mainnet_infura :
  buildRpcUrl (credentials "mainnet" "infura" (Some "KEY123") None) =
  Returned "https://mainnet.infura.io/v3/KEY123".
Proof. reflexivity. Qed.

Example ankr_with_key :
  buildRpcUrl (credentials "mainnet" "ankr" (Some "KEY123") None) =
  Returned "https://rpc.ankr.com/eth/KEY123".
Proof. reflexivity. Qed.

Example custom_without_url :
  buildRpcUrl (credentials "custom" "alchemy" (Some "KEY123") None) =
  Threw "Custom RPC URL is required for custom provider/network".
Proof. reflexivity. Qed.

Example ankrNetworks_count : List.length ankrNetworks = 16%nat.
Proof. reflexivity. Qed.

(** For a named provider other than ["public"], a missing or empty API key
    is rejected before the provider is looked at. *)
Lemma buildRpcUrl_requires_key creds config :
  String.eqb (rpcProvider creds) "custom" = false ->
  String.eqb (network creds) "custom" = false ->
  String.eqb (rpcProvider creds) "public" = false ->
  lookup NETWORKS (network creds) = Some config ->
  truthy_opt (apiKey creds) = false ->
  buildRpcUrl creds =
    Threw ("API key is required for " ++ rpcProvider creds
           ++ " provider")%string.
Proof.
  intros Hp Hn Hpub Hl Hk. unfold buildRpcUrl.
  rewrite Hp, Hn, Hl, Hpub, Hk. reflexivity.
Qed.

(** No descriptor has a hostname template under the key ["quicknode"]. *)
Lemma url_of_quicknode urls : url_of urls "quicknode" = None.
Proof. reflexivity. Qed.

(** With provider ["quicknode"] and a network other than ["custom"],
    [buildRpcUrl] throws whatever else the credentials hold. *)
Lemma buildRpcUrl_quicknode_throws creds :
  rpcProvider creds = "quicknode" ->
  String.eqb (network creds) "custom" = false ->
  exists e, buildRpcUrl creds = Threw e.
Proof.
  intros Hp Hn. unfold buildRpcUrl. rewrite Hp, Hn.
  change (String.eqb "quicknode" "custom") with false.
  change (String.eqb "quicknode" "public") with false.
  cbn [orb].
  destruct (lookup NETWORKS (network creds)) as [config|].
  - destruct (truthy_opt (apiKey creds)); cbn [negb]; [|eauto].
    rewrite url_of_quicknode. cbn. eauto.
  - destruct (inherited (network creds)); cbn [negb]; [|eauto].
    destruct (truthy_opt (apiKey creds)); cbn [negb]; eauto.
Qed.

(** C5.  [buildRpcUrl] on the inputs in question: for each of the sixteen
    networks with an [ankr] template, provider ["ankr"] without an API key
    does not return ["https://" + template]; it throws the missing-key
    error. *)
Theorem C5_ankr_without_key_throws :
  map (fun entry => buildRpcUrl (credentials (fst entry) "ankr" None None))
      ankrNetworks =
  map (fun _ => Threw "API key is required for ankr provider") ankrNetworks
  /\
  buildRpcUrl (credentials "mainnet" "ankr" None None) <>
  Returned "https://rpc.ankr.com/eth".
Proof. split; [vm_compute; reflexivity | discriminate]. Qed.

(** C6.  [buildRpcUrl] on the inputs in question: for each named network,
    provider ["quicknode"] with an API key and a custom RPC URL does not
    return the custom URL; it throws because the registry has no QuickNode
    template. *)
Theorem C6_quicknode_custom_url_throws :
  map (fun n => buildRpcUrl
                  (credentials n "quicknode" (Some "KEY123")
                     (Some "https://example.quiknode.pro/0123456789/")))
      namedNetworks =
  map (fun n => Threw ("Provider quicknode not available for network: "
                       ++ n)%string)
      namedNetworks
  /\
  buildRpcUrl (credentials "mainnet" "quicknode" None
                 (Some "https://example.quiknode.pro/0123456789/")) =
  Threw "API key is required for quicknode provider".
Proof. split; vm_compute; reflexivity. Qed.

End Endpoint.

(* ====================================================================== *)
(** * Properties of the address resolver *)
(* ====================================================================== *)

Module Checksum.
Import Ethers.

Ltac each_char c :=
  destruct c as [[] [] [] [] [] [] [] []]; vm_compute; try reflexivity;
  try discriminate; auto.

Lemma lower_upper_char c :
  is_upper c = false -> lower_char (upper_char c) = c.
Proof. each_char c. Qed.

Lemma is_upper_lower_char c : is_upper (lower_char c) = false.
Proof. each_char c. Qed.

Lemma is_hex_lower_char c : is_hex c = true -> is_hex (lower_char c) = true.
Proof. each_char c. Qed.

Lemma is_hex_upper_char c : is_hex c = true -> is_hex (upper_char c) = true.
Proof. each_char c. Qed.

Lemma toLowerCase_not_upper s : all_chars not_upper (toLowerCase s) = true.
Proof.
  induction s as [|c r IH]; cbn; [reflexivity|].
  unfold not_upper at 1. rewrite is_upper_lower_char, IH. reflexivity.
Qed.

Lemma toLowerCase_fixed s :
  all_chars not_upper s = true -> toLowerCase s = s.
Proof.
  induction s as [|c r IH]; cbn; [reflexivity|]. intros H.
  apply andb_true_iff in H as [Hc Hr]. apply negb_true_iff in Hc.
  rewrite (IH Hr). unfold lower_char. rewrite Hc. reflexivity.
Qed.

(** Lower-casing undoes the case pattern the digest imposes. *)
Lemma toLowerCase_apply_case chars nib :
  all_chars not_upper chars = true ->
  toLowerCase (apply_case chars nib) = chars.
Proof.
  revert nib. induction chars as [|c r IH]; intros nib H.
  - destruct nib; reflexivity.
  - destruct nib as [|n ns]; [apply toLowerCase_fixed, H|].
    cbn in H. apply andb_true_iff in H as [Hc Hr].
    apply negb_true_iff in Hc.
    cbn. rewrite (IH ns Hr).
    destruct (8 <=? n)%N.
    + rewrite (lower_upper_char c Hc). reflexivity.
    + unfold lower_char. rewrite Hc. reflexivity.
Qed.

Lemma length_toLowerCase s : String.length (toLowerCase s) = String.length s.
Proof. induction s; cbn; congruence. Qed.

Lemma length_apply_case chars nib :
  String.length (apply_case chars nib) = String.length chars.
Proof.
  revert nib. induction chars as [|c r IH]; intros [|n ns]; cbn;
    try reflexivity. rewrite IH. reflexivity.
Qed.

Lemma all_hex_toLowerCase s :
  all_chars is_hex s = true -> all_chars is_hex (toLowerCase s) = true.
Proof.
  induction s as [|c r IH]; cbn; [reflexivity|]. intros H.
  apply andb_true_iff in H as [Hc Hr].
  rewrite (is_hex_lower_char c Hc), (IH Hr). reflexivity.
Qed.

Lemma all_hex_apply_case chars nib :
  all_chars is_hex chars = true ->
  all_chars is_hex (apply_case chars nib) = true.
Proof.
  revert nib. induction chars as [|c r IH]; intros [|n ns] H; cbn;
    try exact H; try reflexivity.
  cbn in H. apply andb_true_iff in H as [Hc Hr].
  rewrite (IH ns Hr), andb_true_r.
  destruct (8 <=? n)%N; [apply is_hex_upper_char|]; exact Hc.
Qed.

Lemma hex40_checksum_chars body nib :
  hex40 body = true ->
  hex40 (apply_case (toLowerCase body) nib) = true.
Proof.
  unfold hex40. intros H. apply andb_true_iff in H as [Hlen Hhex].
  rewrite length_apply_case, length_toLowerCase, Hlen.
  rewrite all_hex_apply_case; [reflexivity|].
  apply all_hex_toLowerCase, Hhex.
Qed.

Lemma startsWith_0x s :
  startsWith s "0x" = true -> s = ("0x" ++ substring_from 2 s)%string.
Proof.
  destruct s as [|a [|b r]]; cbn [startsWith]; try discriminate.
  - rewrite andb_false_r. discriminate.
  - rewrite andb_true_r. intros H. apply andb_true_iff in H as [Ha Hb].
    apply Ascii.eqb_eq in Ha, Hb. subst. reflexivity.
Qed.

Lemma getChecksumAddress_0x body :
  getChecksumAddress ("0x" ++ body) =
  ("0x" ++ apply_case (toLowerCase body)
                      (case_nibbles (toLowerCase body)))%string.
Proof. reflexivity. Qed.

(** The checksummed form is a fixed point of the checksum. *)
Lemma getChecksumAddress_idempotent body :
  getChecksumAddress (getChecksumAddress ("0x" ++ body)) =
  getChecksumAddress ("0x" ++ body).
Proof.
  rewrite (getChecksumAddress_0x body).
  rewrite getChecksumAddress_0x.
  rewrite (toLowerCase_apply_case _ _ (toLowerCase_not_upper body)).
  reflexivity.
Qed.

(** The shape of an input the address pattern accepts. *)
Lemma matches_address_shape x :
  matches_address x = true ->
  exists body, prefixed x = ("0x" ++ body)%string /\ hex40 body = true.
Proof.
  unfold matches_address, prefixed.
  destruct (startsWith x "0x") eqn:Hp; intros H.
  - exists (substring_from 2 x). split; [apply startsWith_0x, Hp | exact H].
  - exists x. split; [reflexivity | exact H].
Qed.

Lemma matches_address_0x body :
  hex40 body = true -> matches_address ("0x" ++ body) = true.
Proof. intros H. exact H. Qed.

(** The library accepts a checksummed address and returns it unchanged. *)
Lemma getAddress_checksummed body :
  hex40 body = true ->
  getAddress (getChecksumAddress ("0x" ++ body)) =
  Returned (getChecksumAddress ("0x" ++ body)).
Proof.
  intros H. unfold getAddress.
  pose proof (getChecksumAddress_idempotent body) as Hidem.
  rewrite getChecksumAddress_0x in *.
  set (chars := apply_case (toLowerCase body)
                  (case_nibbles (toLowerCase body))) in *.
  rewrite (matches_address_0x chars (hex40_checksum_chars _ _ H)).
  change (prefixed ("0x" ++ chars)) with ("0x" ++ chars)%string.
  rewrite Hidem, String.eqb_refl, andb_false_r. reflexivity.
Qed.

Lemma some_char_prefixed p x :
  p "0"%char = false -> p "x"%char = false ->
  some_char p (prefixed x) = some_char p x.
Proof.
  intros H0 Hx. unfold prefixed.
  destruct (startsWith x "0x"); [reflexivity|].
  cbn. rewrite H0, Hx. reflexivity.
Qed.

(** The three accepted forms of a hex address: no upper-case hex letter,
    no lower-case hex letter, or the checksummed spelling itself. *)
Lemma getAddress_accepts x :
  matches_address x = true ->
  some_char is_hex_upper x = false \/
  some_char is_hex_lower x = false \/
  getChecksumAddress (prefixed x) = prefixed x ->
  getAddress x = Returned (getChecksumAddress (prefixed x)).
Proof.
  intros Hm Hform. unfold getAddress. rewrite Hm. cbn zeta.
  unfold mixed_case.
  rewrite !some_char_prefixed by reflexivity.
  destruct Hform as [Hu | [Hl | Hc]].
  - rewrite Hu. reflexivity.
  - rewrite Hl, andb_false_r. reflexivity.
  - rewrite Hc, String.eqb_refl, andb_false_r. reflexivity.
Qed.

End Checksum.

Section AnyLibrary.
Import Transport.
Context {lib : AddressLib}.

(** C8.  An input that the library does not accept as an address and that
    has no ['.'] makes [resolveAddress] throw the invalid-address error
    without a request to the endpoint. *)
Theorem C8_invalid_input_rejected (addressOrEns : string)
    (provider : Provider) :
  isAddress addressOrEns = false ->
  contains_char "." addressOrEns = false ->
  resolveAddress addressOrEns provider =
    {| calls := [];
       result := Threw ("Invalid address or ENS name: "
                        ++ addressOrEns)%string |}.
Proof.
  intros Ha Hdot. unfold resolveAddress. rewrite Ha, Hdot. reflexivity.
Qed.

(** Whatever the input, a request is made only for a name lookup of the
    input itself, and only when the input has a ['.']. *)
Lemma resolveAddress_calls (addressOrEns : string) (provider : Provider) :
  calls (resolveAddress addressOrEns provider) = [] \/
  (contains_char "." addressOrEns = true /\
   calls (resolveAddress addressOrEns provider) =
     [CallResolveName addressOrEns]).
Proof.
  unfold resolveAddress.
  destruct (isAddress addressOrEns); [left; reflexivity|].
  destruct (contains_char "." addressOrEns); [|left; reflexivity].
  right. split; [reflexivity|].
  unfold bind, request. cbn.
  destruct (resolveName provider addressOrEns) as [r|e]; [|reflexivity].
  destruct (present r); reflexivity.
Qed.

End AnyLibrary.

Module AddressProperties.
Import Transport Utils Checksum Scenario.

(** C7.  For a hex address - forty hex digits with an optional [0x] -
    written in lower case, in upper case or already checksummed,
    [resolveAddress] returns the EIP-55 checksummed form without a request
    to the endpoint, and resolving its result again changes nothing. *)
Theorem C7_resolveAddress_checksums (x : string) (provider : Provider) :
  Ethers.matches_address x = true ->
  Ethers.some_char Ethers.is_hex_upper x = false \/
  Ethers.some_char Ethers.is_hex_lower x = false \/
  Ethers.getChecksumAddress (Ethers.prefixed x) = Ethers.prefixed x ->
  resolveAddress x provider =
    {| calls := [];
       result :=
         Returned (Ethers.getChecksumAddress (Ethers.prefixed x)) |} /\
  (y <- resolveAddress x provider ;; resolveAddress y provider) =
    resolveAddress x provider.
Proof.
  intros Hm Hform.
  pose proof (getAddress_accepts x Hm Hform) as Hget.
  assert (Hres : forall z r, Ethers.getAddress z = Returned r ->
            resolveAddress z provider =
              {| calls := []; result := Returned r |}).
  { intros z r Hz. unfold resolveAddress. cbn [isAddress getAddress ethers].
    unfold Ethers.isAddress. rewrite Hz. reflexivity. }
  rewrite (Hres _ _ Hget). split; [reflexivity|].
  destruct (matches_address_shape x Hm) as [body [Hp Hhex]].
  rewrite Hp. unfold bind. cbn [result calls].
  rewrite (Hres _ _ (getAddress_checksummed body Hhex)). reflexivity.
Qed.

Lemma C7_witness :
  Ethers.matches_address "0xd8da6bf26964af9d7eed9e03e53415d37aa96045"
    = true /\
  Ethers.some_char Ethers.is_hex_upper
    "0xd8da6bf26964af9d7eed9e03e53415d37aa96045" = false /\
  resolveAddress "0xd8da6bf26964af9d7eed9e03e53415d37aa96045"
                 (endpoint 1050 []) =
    {| calls := [];
       result := Returned "0xd8dA6BF26964aF9D7eEd9e03E53415D37aA96045" |}.
Proof.
  do 2 (split; [vm_compute; reflexivity|]).
  refine (eq_trans
            (proj1 (C7_resolveAddress_checksums
                      "0xd8da6bf26964af9d7eed9e03e53415d37aa96045"
                      (endpoint 1050 []) eq_refl (or_introl eq_refl))) _).
  vm_compute; reflexivity.
Defined.

Lemma C8_witness :
  isAddress "0xZZZ4567890123456789012345678901234567890" = false /\
  contains_char "." "0xZZZ4567890123456789012345678901234567890" = false /\
  resolveAddress "0xZZZ4567890123456789012345678901234567890"
                 (endpoint 1050 []) =
    {| calls := [];
       result :=
         Threw "Invalid address or ENS name: 0xZZZ4567890123456789012345678901234567890" |}.
Proof.
  do 2 (split; [vm_compute; reflexivity|]).
  exact (C8_invalid_input_rejected
           "0xZZZ4567890123456789012345678901234567890"
           (endpoint 1050 []) eq_refl eq_refl).
Defined.

(** C8 as stated, for every input that is no hex address, fails: the
    library's [isAddress] also accepts the ICAP notation, so for such an
    input, which is neither a hex address nor has a ['.'],
    [resolveAddress] returns the address it denotes instead of throwing
    the invalid-address error. *)
Lemma C8_counterexample :
  Ethers.matches_address icapAddress = false /\
  contains_char "." icapAddress = false /\
  resolveAddress (lib := ethersWithIcap) icapAddress (endpoint 1050 []) =
    {| calls := [];
       result := Returned "0x00c5496aEe77C1bA1f0854206A26DdA82a81D6D8" |} /\
  result (resolveAddress (lib := ethersWithIcap) icapAddress
                         (endpoint 1050 [])) <>
    Threw ("Invalid address or ENS name: " ++ icapAddress)%string.
Proof.
  do 3 (split; [vm_compute; reflexivity|]).
  vm_compute. discriminate.
Qed.

(** On hex addresses the ICAP branch plays no part: the library with it
    returns what [Ethers.getAddress] returns. *)
Lemma icap_getAddress_hex (x : string) :
  Ethers.matches_address x = true ->
  Icap.getAddress x = Ethers.getAddress x.
Proof. intros H. unfold Icap.getAddress. rewrite H. reflexivity. Qed.

(** With that library the inputs [resolveAddress] rejects without a
    request are those in neither notation and without a ['.']. *)
Lemma icap_invalid_input (s : string) (provider : Provider) :
  Ethers.matches_address s = false ->
  Icap.matches_icap s = false ->
  contains_char "." s = false ->
  resolveAddress (lib := ethersWithIcap) s provider =
    {| calls := [];
       result := Threw ("Invalid address or ENS name: " ++ s)%string |}.
Proof.
  intros Hhex Hicap Hdot. unfold resolveAddress.
  cbn [isAddress ethersWithIcap].
  unfold Icap.isAddress, Icap.getAddress.
  rewrite Hhex, Hicap, Hdot. reflexivity.
Qed.

(** The check digits are checked: one digit off and the input is no
    address. *)
Example icap_bad_checksum :
  Icap.getAddress "XE7438O073KYGTWWZN0F2WZ0R8PX5ZPPZS" =
    Threw "bad icap checksum".
Proof. vm_compute. reflexivity. Qed.

(** The unit tests of [src/utils/index.test.ts] on the model. *)
Example test_isValidAddress :
  isValidAddress "0xd8dA6BF26964aF9D7eEd9e03E53415D37aA96045" = true /\
  isValidAddress "0xd8da6bf26964af9d7eed9e03e53415d37aa96045" = true /\
  isValidAddress "0xinvalid" = false /\
  isValidAddress "not an address" = false.
Proof. repeat split; vm_compute; reflexivity. Qed.

Example test_checksumAddress :
  checksumAddress "0xd8da6bf26964af9d7eed9e03e53415d37aa96045" =
    Returned "0xd8dA6BF26964aF9D7eEd9e03E53415D37aA96045" /\
  checksumAddress "0xinvalid" = Threw "Invalid Ethereum address: 0xinvalid".
Proof. split; vm_compute; reflexivity. Qed.

(** A mixed-case spelling with a wrong checksum is not an address. *)
Example bad_checksum_rejected :
  Ethers.isAddress "0xd8dA6BF26964aF9D7eEd9e03E53415D37aA96044" = false.
Proof. vm_compute. reflexivity. Qed.

End AddressProperties.

(* ====================================================================== *)
(** * Properties of the transfer filters *)
(* ====================================================================== *)

Section Transfers.
Import Trigger Utils.
Context {lib : AddressLib}.

Lemma forEach_ret {A} (xs : list A) (body : A -> Run (list Item))
    (f : A -> list Item) :
  Forall (fun x => body x = ret (f x)) xs ->
  forEach xs body = ret (flat_map f xs).
Proof.
  induction 1 as [|x xs Hx _ IH]; [reflexivity|].
  cbn [forEach flat_map]. rewrite Hx, IH. reflexivity.
Qed.

Lemma checksumAddress_returns address :
  returns (checksumAddress address) = true ->
  lift (checksumAddress address) = ret (checksummed address).
Proof.
  unfold checksummed, lift, ret.
  destruct (checksumAddress address); [reflexivity | discriminate].
Qed.

(** With filter type ['either'] the code's post-filter skips exactly the
    decoded logs [matchesEither] rejects. *)
Lemma skippedByEither_matches filterAddress log from to value :
  truthy filterAddress = true ->
  tl_args log = Some (from, to, value) ->
  skippedByEither "either" filterAddress from to =
  negb (matchesEither filterAddress log).
Proof.
  intros Ht Ha. unfold skippedByEither, matchesEither.
  rewrite Ha, Ht. cbn. rewrite negb_orb. reflexivity.
Qed.

Lemma eitherItems_logs emit filterAddress logs :
  (forall f t v l, item_log (emit f t v l) = Some l) ->
  map item_log (flat_map (eitherItems emit filterAddress) logs) =
  map (fun log => Some (tl_log log))
      (filter (matchesEither filterAddress) logs).
Proof.
  intros Hemit. induction logs as [|log logs IH]; [reflexivity|].
  cbn [flat_map filter]. rewrite map_app, IH.
  unfold eitherItems at 1.
  destruct (tl_args log) as [[[from to] value]|] eqn:Ha.
  - destruct (matchesEither filterAddress log); [|reflexivity].
    cbn. rewrite Hemit. reflexivity.
  - unfold matchesEither. rewrite Ha. reflexivity.
Qed.

Lemma either_body emit filterAddress tokenAddress logs :
  truthy filterAddress = true ->
  returns (checksumAddress tokenAddress) = true ->
  forallb partiesAccepted logs = true ->
  Forall (fun log =>
    match tl_args log with
    | None => ret []
    | Some (from, to, value) =>
        if skippedByEither "either" filterAddress from to then ret []
        else
          address <- lift (checksumAddress tokenAddress) ;;
          from' <- lift (checksumAddress from) ;;
          to' <- lift (checksumAddress to) ;;
          ret [emit address from' to' value (tl_log log)]
    end = ret (eitherItems (emit (checksummed tokenAddress))
                           filterAddress log)) logs.
Proof.
  intros Ht Htoken Hall. apply Forall_forall. intros log Hin.
  rewrite forallb_forall in Hall. specialize (Hall log Hin).
  unfold partiesAccepted, eitherItems in *.
  destruct (tl_args log) as [[[from to] value]|] eqn:Ha; [|reflexivity].
  rewrite (skippedByEither_matches filterAddress log from to value Ht Ha).
  destruct (matchesEither filterAddress log); [|reflexivity].
  apply andb_true_iff in Hall as [Hf Hto]. cbn [negb].
  rewrite !checksumAddress_returns by assumption. reflexivity.
Qed.

End Transfers.

Section TransferProperties.
Import Trigger Utils.
Context {lib : AddressLib}.

Lemma transferFilter_either filterAddress :
  transferFilter "either" filterAddress =
  {| tf_from := None; tf_to := None |}.
Proof. unfold transferFilter. destruct (truthy filterAddress); reflexivity. Qed.

Lemma bind_request_returned {A B} (c : Call) (a : A) (k : A -> Run B) :
  bind (request c (Returned a)) k =
  {| calls := c :: calls (k a); result := result (k a) |}.
Proof. reflexivity. Qed.

(** C9.  A token-transfer or NFT-transfer cycle with filter type ['either']
    and a non-empty filter address sends one log query, with neither topic
    constrained, over the cycle's range, and emits an item for exactly
    the logs of the answer whose decoded [from] or [to] equals the filter
    address up to letter case, in the order of the answer. *)
Theorem C9_either_is_a_post_filter p h provider sd u currentBlock w
    logs token :
  event p = "tokenTransfer" \/ event p = "nftTransfer" ->
  tokenFilterType p = "either" ->
  truthy (tokenFilterAddress p) = true ->
  connect h = Returned u ->
  getBlockNumber provider = Returned currentBlock ->
  lastBlock sd = Some w ->
  w < currentBlock ->
  let fromBlock := w + 1 in
  let toBlock := Z.min currentBlock (fromBlock + batchSize p - 1) in
  let unconstrained := {| tf_from := None; tf_to := None |} in
  queryTransfer provider (transferAbiOf (event p)) (tokenAddress p)
                unconstrained fromBlock toBlock = Returned logs ->
  (event p = "tokenTransfer" ->
   tokenInfo provider (tokenAddress p) = Returned token) ->
  returns (checksumAddress (tokenAddress p)) = true ->
  forallb partiesAccepted logs = true ->
  exists items,
    snd (poll p h provider sd) =
      {| calls :=
           CallGetBlockNumber
           :: CallQueryTransfer (transferAbiOf (event p)) (tokenAddress p)
                                unconstrained fromBlock toBlock
           :: transferLookups (event p) (tokenAddress p);
         result := Returned (match items with
                             | [] => None
                             | _ :: _ => Some items
                             end) |} /\
    map item_log items =
    map (fun log => Some (tl_log log))
        (filter (matchesEither (tokenFilterAddress p)) logs).
Proof.
  intros Hev Hty Htruthy Hc Hh Hw Hnew fromBlock toBlock unconstrained
         Hq Hinfo Htoken Hparties.
  assert (Hs : startingWatermark p sd currentBlock = w)
    by (unfold startingWatermark; rewrite Hw; reflexivity).
  rewrite (poll_processing p h provider sd u currentBlock Hc Hh);
    rewrite Hs; [|exact Hnew].
  fold fromBlock toBlock. cbn [snd].
  unfold runEvent, transferAbiOf, transferLookups in *.
  destruct Hev as [Hev | Hev]; rewrite Hev in *; cbn [String.eqb Ascii.eqb Bool.eqb] in *.
  - exists (flat_map
              (eitherItems
                 (ItemTokenTransfer (checksummed (tokenAddress p)) token)
                 (tokenFilterAddress p)) logs).
    split; [|apply eitherItems_logs; reflexivity].
    unfold tokenTransfer. rewrite Hty, transferFilter_either.
    fold unconstrained. rewrite Hq, (Hinfo eq_refl).
    unfold delivered. rewrite !bind_request_returned. cbn beta.
    rewrite (forEach_ret logs _ _
               (either_body
                  (fun a f t v l => ItemTokenTransfer a token f t v l)
                  (tokenFilterAddress p) (tokenAddress p) logs
                  Htruthy Htoken Hparties)).
    unfold bind, ret. cbn.
    destruct (flat_map _ logs); reflexivity.
  - exists (flat_map
              (eitherItems
                 (ItemNftTransfer (checksummed (tokenAddress p)))
                 (tokenFilterAddress p)) logs).
    split; [|apply eitherItems_logs; reflexivity].
    unfold nftTransfer. rewrite Hty, transferFilter_either.
    fold unconstrained. rewrite Hq.
    unfold delivered. rewrite !bind_request_returned. cbn beta.
    rewrite (forEach_ret logs _ _
               (either_body
                  (fun a f t v l => ItemNftTransfer a f t v l)
                  (tokenFilterAddress p) (tokenAddress p) logs
                  Htruthy Htoken Hparties)).
    unfold bind, ret. cbn.
    destruct (flat_map _ logs); reflexivity.
Qed.

End TransferProperties.

Module TransferRuns.
Import Trigger Utils Scenario.

Example scenario4_emitted :
  result (snd (poll (scenario4_params "tokenTransfer") host
                    (endpoint 1050 scenario4_logs)
                    {| lastBlock := Some 999 |})) =
  Returned (Some
    [ ItemTokenTransfer dai
        {| token_name := "Dai Stablecoin"; token_symbol := "DAI";
           token_decimals := 18 |}
        "0xabC0000000000000000000000000000000000aBC"
        "0xdEf0000000000000000000000000000000000DeF" 5
        (tl_log (transferLog 0 None));
      ItemTokenTransfer dai
        {| token_name := "Dai Stablecoin"; token_symbol := "DAI";
           token_decimals := 18 |}
        "0x1110000000000000000000000000000000000111"
        "0xabC0000000000000000000000000000000000aBC" 9
        (tl_log (transferLog 3 None)) ]).
Proof. vm_compute. reflexivity. Qed.

Lemma C9_witness :
  (event (scenario4_params "nftTransfer") = "tokenTransfer" \/
   event (scenario4_params "nftTransfer") = "nftTransfer") /\
  tokenFilterType (scenario4_params "nftTransfer") = "either" /\
  truthy (tokenFilterAddress (scenario4_params "nftTransfer")) = true /\
  connect host = Returned tt /\
  getBlockNumber (endpoint 1050 scenario4_logs) = Returned 1050 /\
  lastBlock {| lastBlock := Some 999 |} = Some 999 /\
  999 < 1050 /\
  queryTransfer (endpoint 1050 scenario4_logs) ERC721_TRANSFER_ABI dai
    {| tf_from := None; tf_to := None |} 1000 1050 = Returned scenario4_logs
  /\
  returns (checksumAddress dai) = true /\
  forallb partiesAccepted scenario4_logs = true /\
  exists items,
    snd (poll (scenario4_params "nftTransfer") host
              (endpoint 1050 scenario4_logs) {| lastBlock := Some 999 |}) =
      {| calls :=
           [ CallGetBlockNumber;
             CallQueryTransfer ERC721_TRANSFER_ABI dai
               {| tf_from := None; tf_to := None |} 1000 1050 ];
         result := Returned (match items with
                             | [] => None
                             | _ :: _ => Some items
                             end) |} /\
    map item_log items =
      [Some (tl_log (transferLog 0 None)); Some (tl_log (transferLog 3 None))].
Proof.
  split; [right; reflexivity|].
  do 6 (split; [vm_compute; reflexivity|]).
  do 3 (split; [vm_compute; reflexivity|]).
  assert (Hp : forallb partiesAccepted scenario4_logs = true)
    by (vm_compute; reflexivity).
  assert (Ht : returns (checksumAddress dai) = true)
    by (vm_compute; reflexivity).
  exact (C9_either_is_a_post_filter (scenario4_params "nftTransfer") host
           (endpoint 1050 scenario4_logs) {| lastBlock := Some 999 |} tt
           1050 999 scenario4_logs
           {| token_name := "Dai Stablecoin"; token_symbol := "DAI";
              token_decimals := 18 |}
           (or_intror eq_refl) eq_refl eq_refl eq_refl eq_refl eq_refl
           eq_refl eq_refl (fun _ => eq_refl) Ht Hp).
Defined.

End TransferRuns.

(* ====================================================================== *)
(** * Further properties of the transport layer *)
(* ====================================================================== *)

Module Resolver.
Import Types Transport Scenario.

(** An identifier the registry resolves is one of its entries. *)
Lemma lookup_In table network config :
  lookup table network = Some config -> In (network, config) table.
Proof.
  induction table as [|[k v] rest IH]; cbn; [discriminate|].
  destruct (String.eqb_spec k network) as [->|_].
  - intros H. injection H as ->. left. reflexivity.
  - intros H. right. apply IH, H.
Qed.

(** A decidable property of every entry holds of what [lookup] finds. *)
Lemma lookup_checked (check : string * NetworkConfig -> bool) network config :
  forallb check NETWORKS = true ->
  lookup NETWORKS network = Some config ->
  check (network, config) = true.
Proof.
  intros Hall Hl. rewrite forallb_forall in Hall.
  apply Hall, lookup_In, Hl.
Qed.

Lemma registry_templates_nonempty network config provider template :
  lookup NETWORKS network = Some config ->
  url_of (rpcUrls config) provider = Some template ->
  truthy template = true.
Proof.
  intros Hl Hu.
  pose proof (lookup_checked templates_present network config eq_refl Hl)
    as Hc.
  unfold templates_present in Hc. cbn [snd] in Hc.
  apply andb_true_iff in Hc as [Hc Hpub].
  apply andb_true_iff in Hc as [Hc Hankr].
  apply andb_true_iff in Hc as [Halc Hinf].
  unfold url_of in Hu.
  destruct (String.eqb provider "alchemy"); [rewrite Hu in Halc; exact Halc|].
  destruct (String.eqb provider "infura"); [rewrite Hu in Hinf; exact Hinf|].
  destruct (String.eqb provider "ankr"); [rewrite Hu in Hankr; exact Hankr|].
  destruct (String.eqb provider "public"); [rewrite Hu in Hpub; exact Hpub|].
  discriminate.
Qed.

Lemma present_truthy s : truthy s = true -> present (Some s) = Some s.
Proof. intros H. cbn. rewrite H. reflexivity. Qed.

(** For alchemy, infura and ankr with an API key, on a registry network
    that has a template for the provider, the URL is
    [https://{template}/{apiKey}]. *)
Theorem buildRpcUrl_keyed creds config template key :
  In (rpcProvider creds) ["alchemy"; "infura"; "ankr"] ->
  String.eqb (network creds) "custom" = false ->
  lookup NETWORKS (network creds) = Some config ->
  url_of (rpcUrls config) (rpcProvider creds) = Some template ->
  apiKey creds = Some key ->
  truthy key = true ->
  buildRpcUrl creds =
    Returned ("https://" ++ template ++ "/" ++ key)%string.
Proof.
  intros Hp Hn Hl Hu Hk Hkey.
  pose proof (registry_templates_nonempty _ _ _ _ Hl Hu) as Ht.
  unfold buildRpcUrl. rewrite Hn, Hl, Hk, Hu.
  rewrite (present_truthy template Ht).
  cbn [truthy_opt show]. rewrite Hkey. cbn [negb].
  cbn in Hp. destruct Hp as [Hp | [Hp | [Hp | []]]]; rewrite <- Hp;
    reflexivity.
Qed.

(** With provider ["public"] every registry network other than
    ["custom"] resolves, to [https://] and its public host; the API key
    plays no part. *)
Theorem buildRpcUrl_public creds config :
  rpcProvider creds = "public" ->
  String.eqb (network creds) "custom" = false ->
  lookup NETWORKS (network creds) = Some config ->
  exists host,
    public (rpcUrls config) = Some host /\
    buildRpcUrl creds = Returned ("https://" ++ host)%string.
Proof.
  intros Hp Hn Hl.
  pose proof (lookup_checked public_present _ _ eq_refl Hl) as Hc.
  unfold public_present, named in Hc. cbn [fst snd] in Hc.
  rewrite Hn in Hc. cbn in Hc.
  destruct (public (rpcUrls config)) as [host|] eqn:Hpub; [|discriminate].
  exists host. split; [reflexivity|].
  unfold buildRpcUrl. rewrite Hp, Hn, Hl, Hpub. cbn.
  rewrite Hc. reflexivity.
Qed.

Lemma present_Some s t : present s = Some t -> s = Some t /\ truthy t = true.
Proof.
  destruct s as [s|]; cbn; [|discriminate].
  destruct (truthy s) eqn:H; [|discriminate].
  intros E. injection E as ->. split; [reflexivity | exact H].
Qed.

(** A URL that [buildRpcUrl] returns is either the custom URL the user
    supplied or starts with [https://]. *)
Theorem buildRpcUrl_scheme creds url :
  buildRpcUrl creds = Returned url ->
  customRpcUrl creds = Some url \/ startsWith url "https://" = true.
Proof.
  unfold buildRpcUrl.
  destruct (String.eqb (rpcProvider creds) "custom"
            || String.eqb (network creds) "custom").
  { destruct (present (customRpcUrl creds)) as [u|] eqn:Hu; [|discriminate].
    intros H. injection H as ->. left. apply present_Some, Hu. }
  destruct (lookup NETWORKS (network creds)) as [config|].
  2:{ destruct (inherited (network creds)); cbn [negb]; [|discriminate].
      destruct (String.eqb (rpcProvider creds) "public"); [discriminate|].
      destruct (truthy_opt (apiKey creds)); discriminate. }
  destruct (String.eqb (rpcProvider creds) "public").
  { destruct (present (public (rpcUrls config))); [|discriminate].
    intros H. injection H as <-. right. reflexivity. }
  destruct (truthy_opt (apiKey creds)); cbn [negb]; [|discriminate].
  destruct (present (url_of (rpcUrls config) (rpcProvider creds))).
  2:{ destruct (inherited (rpcProvider creds)); discriminate. }
  destruct (String.eqb (rpcProvider creds) "alchemy");
    [intros H; injection H as <-; right; reflexivity|].
  destruct (String.eqb (rpcProvider creds) "infura");
    [intros H; injection H as <-; right; reflexivity|].
  destruct (String.eqb (rpcProvider creds) "ankr");
    [intros H; injection H as <-; right; reflexivity|].
  destruct (String.eqb (rpcProvider creds) "quicknode"); [|discriminate].
  destruct (present (customRpcUrl creds)) as [u|] eqn:Hu.
  - intros H. injection H as ->. left. apply present_Some, Hu.
  - intros H. injection H as <-. right. reflexivity.
Qed.

(** An inherited member is none of the provider names the code tests
    for, and no descriptor has a template under its name. *)
Lemma inherited_provider provider :
  inherited provider = true ->
  String.eqb provider "custom" = false /\
  String.eqb provider "public" = false /\
  forall urls, url_of urls provider = None.
Proof.
  unfold inherited, objectPrototype. cbn [existsb]. intros H.
  repeat (apply orb_true_iff in H as [H | H];
          [apply String.eqb_eq in H; subst provider;
           repeat split; reflexivity|]).
  discriminate.
Qed.

(** The [default] arm of the provider switch is reached for exactly one
    kind of provider name, a member inherited from [Object.prototype]
    such as [toString]: on a registry network other than ["custom"] and
    with an API key, the inherited member stands in for the hostname
    template and the error is "Unknown RPC provider".  Any other name
    without a template is rejected before the switch. *)
Theorem buildRpcUrl_default_arm creds :
  buildRpcUrl creds =
    Threw ("Unknown RPC provider: " ++ rpcProvider creds)%string <->
  inherited (rpcProvider creds) = true /\
  String.eqb (network creds) "custom" = false /\
  lookup NETWORKS (network creds) <> None /\
  truthy_opt (apiKey creds) = true.
Proof.
  split.
  - unfold buildRpcUrl.
    destruct (String.eqb (rpcProvider creds) "custom"); cbn [orb].
    { destruct (present (customRpcUrl creds)); discriminate. }
    destruct (String.eqb (network creds) "custom") eqn:Hn.
    { destruct (present (customRpcUrl creds)); discriminate. }
    destruct (lookup NETWORKS (network creds)) as [config|].
    2:{ destruct (inherited (network creds)); cbn [negb]; [|discriminate].
        destruct (String.eqb (rpcProvider creds) "public"); [discriminate|].
        destruct (truthy_opt (apiKey creds)); discriminate. }
    destruct (String.eqb (rpcProvider creds) "public") eqn:Hpub.
    { destruct (present (public (rpcUrls config))); discriminate. }
    destruct (truthy_opt (apiKey creds)); cbn [negb]; [|discriminate].
    unfold url_of.
    destruct (String.eqb_spec (rpcProvider creds) "alchemy") as [Ha | _].
    { rewrite Ha. destruct (present (alchemy (rpcUrls config)));
        discriminate. }
    destruct (String.eqb_spec (rpcProvider creds) "infura") as [Hi | _].
    { rewrite Hi. destruct (present (infura (rpcUrls config)));
        discriminate. }
    destruct (String.eqb_spec (rpcProvider creds) "ankr") as [Hk | _].
    { rewrite Hk. destruct (present (ankr (rpcUrls config)));
        discriminate. }
    rewrite Hpub. cbn [present].
    destruct (inherited (rpcProvider creds)); cbn [negb]; [|discriminate].
    intros _. repeat split. discriminate.
  - intros [Hi [Hn [Hl Hk]]].
    destruct (inherited_provider _ Hi) as [Hc [Hp Hu]].
    unfold buildRpcUrl. rewrite Hc, Hn, Hp, Hk. cbn [orb negb].
    destruct (lookup NETWORKS (network creds)) as [config|];
      [|contradiction].
    rewrite Hu. cbn [present]. rewrite Hi. reflexivity.
Qed.

End Resolver.

Module Connection.
Import Types Transport Scenario Resolver.

(** Without a custom WebSocket URL, [buildWsUrl] gives a URL exactly for
    the providers alchemy and infura on the networks mainnet and sepolia;
    everything else is polling only. *)
Theorem buildWsUrl_available creds :
  present (customWsUrl creds) = None ->
  (buildWsUrl creds <> None <->
   (rpcProvider creds = "alchemy" \/ rpcProvider creds = "infura") /\
   (network creds = "mainnet" \/ network creds = "sepolia")).
Proof.
  intros Hc. unfold buildWsUrl. rewrite Hc. split.
  - destruct (String.eqb (rpcProvider creds) "custom"
              || String.eqb (network creds) "custom"); [congruence|].
    destruct (lookup NETWORKS (network creds)) as [config|] eqn:Hl;
      [|congruence].
    pose proof (lookup_checked ws_only_two _ _ eq_refl Hl) as Hw.
    unfold ws_only_two in Hw. cbn [fst snd] in Hw.
    destruct (wsUrls config) as [urls|]; [|congruence].
    apply andb_true_iff in Hw as [Hn _].
    destruct (present (url_of urls (rpcProvider creds))); [|congruence].
    intros H. split.
    + destruct (String.eqb_spec (rpcProvider creds) "alchemy"); [auto|].
      destruct (String.eqb_spec (rpcProvider creds) "infura"); [auto|].
      congruence.
    + apply orb_true_iff in Hn as [Hn | Hn]; apply String.eqb_eq in Hn; auto.
  - intros [Hp Hn].
    destruct Hp as [-> | ->], Hn as [-> | ->]; cbn; discriminate.
Qed.

(** [buildWsUrl] does not ask for an API key: where [buildRpcUrl] rejects
    credentials without one, [buildWsUrl] returns a URL whose last segment
    is the text [undefined]. *)
Theorem buildWsUrl_without_key creds :
  present (customWsUrl creds) = None ->
  rpcProvider creds = "alchemy" \/ rpcProvider creds = "infura" ->
  network creds = "mainnet" \/ network creds = "sepolia" ->
  apiKey creds = None ->
  (exists config urls template,
     lookup NETWORKS (network creds) = Some config /\
     wsUrls config = Some urls /\
     url_of urls (rpcProvider creds) = Some template /\
     buildWsUrl creds = Some ("wss://" ++ template ++ "/undefined")%string) /\
  buildRpcUrl creds =
    Threw ("API key is required for " ++ rpcProvider creds
           ++ " provider")%string.
Proof.
  intros Hc Hp Hn Hk. unfold buildWsUrl, buildRpcUrl. rewrite Hc, Hk.
  destruct Hp as [-> | ->], Hn as [-> | ->];
    (split; [do 3 eexists; repeat split; reflexivity | reflexivity]).
Qed.

Lemma registry_chainId_positive network config :
  String.eqb network "custom" = false ->
  lookup NETWORKS network = Some config ->
  0 < chainId config.
Proof.
  intros Hn Hl.
  pose proof (lookup_checked chain_id_set _ _ eq_refl Hl) as Hc.
  unfold chain_id_set, named in Hc. cbn [fst snd] in Hc.
  rewrite Hn in Hc. cbn in Hc. apply Z.ltb_lt in Hc. exact Hc.
Qed.

Lemma getNetworkConfig_nonzero creds config :
  getNetworkConfig creds = Some config -> chainId config <> 0.
Proof.
  unfold getNetworkConfig.
  destruct (String.eqb (network creds) "custom") eqn:Hn.
  - cbn. intros H. injection H as <-. cbn [chainId withChainId].
    unfold num_or. destruct (customChainId creds) as [c|]; [|lia].
    destruct (Z.eqb_spec c 0); lia.
  - intros Hl. pose proof (registry_chainId_positive _ _ Hn Hl). lia.
Qed.

(** The chain id [getNetworkConfig] reports is never 0: a custom network
    gets the supplied chain id, or 1 when none (or 0) is supplied, and a
    registry network its positive registry value, whatever
    [customChainId] says. *)
Theorem getNetworkConfig_chainId creds config :
  getNetworkConfig creds = Some config ->
  chainId config <> 0 /\
  (network creds = "custom" ->
   chainId config = num_or (customChainId creds) 1) /\
  (network creds <> "custom" ->
   lookup NETWORKS (network creds) = Some config /\ 0 < chainId config).
Proof.
  unfold getNetworkConfig.
  destruct (String.eqb_spec (network creds) "custom") as [Hn | Hn].
  - cbn. intros H. injection H as <-. cbn [chainId withChainId].
    repeat split; try congruence.
    unfold num_or. destruct (customChainId creds) as [c|]; [|lia].
    destruct (Z.eqb_spec c 0); lia.
  - intros Hl.
    pose proof (lookup_checked chain_id_set _ _ eq_refl Hl) as Hc.
    unfold chain_id_set, named in Hc. cbn [fst snd] in Hc.
    apply String.eqb_neq in Hn. rewrite Hn in Hc. cbn in Hc.
    apply Z.ltb_lt in Hc. apply String.eqb_neq in Hn.
    repeat split; try lia; try congruence.
Qed.

(** A private key is accepted with or without its [0x]: credentials that
    differ only in that prefix give the same wallet, or the same error. *)
Theorem createWallet_prefix library creds creds' provider key :
  walletType creds = "privateKey" ->
  walletType creds' = "privateKey" ->
  truthy key = true ->
  startsWith key "0x" = false ->
  privateKey creds = Some key ->
  privateKey creds' = Some ("0x" ++ key)%string ->
  createWallet library creds provider =
  createWallet library creds' provider /\
  createWallet library creds provider =
  bound provider (newWallet library ("0x" ++ key)%string).
Proof.
  intros Hw Hw' Ht Hp Hk Hk'. unfold createWallet.
  rewrite Hw, Hw', Hk, Hk'. cbn -[startsWith truthy].
  rewrite Ht, Hp. split; reflexivity.
Qed.

(** A mnemonic without a derivation path (or with an empty one) is derived
    along [m/44'/60'/0'/0/0]: it gives the same wallet, or the same error,
    as credentials that name that path. *)
Theorem createWallet_default_path library creds creds' provider :
  walletType creds = "mnemonic" ->
  walletType creds' = "mnemonic" ->
  mnemonic creds' = mnemonic creds ->
  present (derivationPath creds) = None ->
  derivationPath creds' = Some "m/44'/60'/0'/0/0" ->
  createWallet library creds provider =
  createWallet library creds' provider.
Proof.
  intros Hw Hw' Hm Hd Hd'. unfold createWallet.
  rewrite Hw, Hw', Hm, Hd, Hd'. reflexivity.
Qed.

Lemma createWallet_none library creds provider wallet :
  createWallet library creds provider = Returned wallet ->
  (wallet = None <-> walletType creds = "none").
Proof.
  unfold createWallet, bound.
  destruct (String.eqb_spec (walletType creds) "none") as [Hn | Hn].
  { intros H. injection H as <-. tauto. }
  destruct (String.eqb (walletType creds) "privateKey").
  { destruct (present (privateKey creds)); [|discriminate].
    destruct (newWallet library _); [|discriminate].
    intros H. injection H as <-. split; [discriminate | tauto]. }
  destruct (String.eqb (walletType creds) "mnemonic"); [|discriminate].
  destruct (present (mnemonic creds)); [|discriminate].
  destruct (fromPhrase library _ _); [|discriminate].
  intros H. injection H as <-. split; [discriminate | tauto].
Qed.

(** A connection that [createConnection] returns is read-only exactly
    when the wallet type is ["none"]; its provider is built from the URL
    of [buildRpcUrl] and the chain id and name of the network descriptor,
    and a signer, if any, is bound to that provider. *)
Theorem createConnection_readOnly library creds conn :
  createConnection library creds = Returned conn ->
  (isReadOnly conn = true <-> walletType creds = "none") /\
  (isReadOnly conn = true <-> conn_wallet conn = None) /\
  buildRpcUrl creds = Returned (provider_url (conn_provider conn)) /\
  (exists config,
     conn_network conn = Some config /\
     provider_chainId (conn_provider conn) = chainId config /\
     provider_name (conn_provider conn) = name config /\
     chainId config <> 0) /\
  (forall wallet, conn_wallet conn = Some wallet ->
     wallet_provider wallet = conn_provider conn).
Proof.
  unfold createConnection, createProvider.
  destruct (buildRpcUrl creds) as [url|] eqn:Hu; [|discriminate].
  destruct (getNetworkConfig creds) as [config|] eqn:Hc.
  2:{ destruct (inherited (network creds)); discriminate. }
  destruct (createWallet library creds _) as [wallet|] eqn:Hw;
    [|discriminate].
  intros H. injection H as <-. cbn.
  pose proof (createWallet_none _ _ _ _ Hw) as Hnone.
  split; [|split; [|split; [|split]]].
  - destruct wallet; [|tauto].
    split; [discriminate|]. intros E. apply Hnone in E. discriminate.
  - destruct wallet; split; congruence.
  - reflexivity.
  - exists config. repeat split.
    apply (getNetworkConfig_nonzero creds config Hc).
  - intros w ->. unfold createWallet, bound in Hw.
    destruct (String.eqb (walletType creds) "none"); [discriminate|].
    destruct (String.eqb (walletType creds) "privateKey").
    { destruct (present (privateKey creds)); [|discriminate].
      destruct (newWallet library _); [|discriminate].
      injection Hw as <-. reflexivity. }
    destruct (String.eqb (walletType creds) "mnemonic"); [|discriminate].
    destruct (present (mnemonic creds)); [|discriminate].
    destruct (fromPhrase library _ _); [|discriminate].
    injection Hw as <-. reflexivity.
Qed.

(** Missing or empty network, provider and wallet type default to
    mainnet, the public endpoint and no wallet: whatever else the
    credential object holds, the connection is read-only, to the public
    mainnet host with chain id 1, and the signer library is not
    consulted. *)
Theorem createConnectionFromCredentials_defaults library data :
  present (cd_network data) = None ->
  present (cd_rpcProvider data) = None ->
  present (cd_walletType data) = None ->
  createConnectionFromCredentials library data =
  Returned
    {| conn_provider := {| provider_url := "https://eth.llamarpc.com";
                           provider_chainId := 1;
                           provider_name := "Ethereum Mainnet" |};
       conn_wallet := None;
       conn_network := lookup NETWORKS "mainnet";
       conn_networkId := "mainnet";
       isReadOnly := true |}.
Proof.
  intros Hn Hp Hw.
  unfold createConnectionFromCredentials, createConnection, createProvider,
    createWallet, buildRpcUrl, getNetworkConfig, credentialsOf, str_or.
  cbn [network rpcProvider walletType apiKey customRpcUrl customChainId].
  rewrite Hn, Hp, Hw. reflexivity.
Qed.

End Connection.

Module TransportRuns.
Import Types Transport Scenario Resolver Connection.

Lemma buildRpcUrl_keyed_witness :
  In "infura" ["alchemy"; "infura"; "ankr"] /\
  String.eqb "polygon" "custom" = false /\
  url_of (rpcUrls (mk "Polygon Mainnet" 137 "MATIC"
                      "https://polygonscan.com" false true
                      (Some "polygon-mainnet.g.alchemy.com/v2")
                      (Some "polygon-mainnet.infura.io/v3")
                      (Some "rpc.ankr.com/polygon")
                      (Some "polygon-rpc.com") None)) "infura"
    = Some "polygon-mainnet.infura.io/v3" /\
  truthy "KEY123" = true /\
  buildRpcUrl (credentials "polygon" "infura" (Some "KEY123") None) =
    Returned "https://polygon-mainnet.infura.io/v3/KEY123".
Proof.
  split; [right; left; reflexivity|].
  do 3 (split; [reflexivity|]).
  exact (buildRpcUrl_keyed
           (credentials "polygon" "infura" (Some "KEY123") None)
           _ "polygon-mainnet.infura.io/v3" "KEY123"
           (or_intror (or_introl eq_refl)) eq_refl eq_refl eq_refl
           eq_refl eq_refl).
Defined.

Lemma buildRpcUrl_public_witness :
  String.eqb "bsc" "custom" = false /\
  exists host,
    buildRpcUrl (credentials "bsc" "public" (Some "ignored") None) =
      Returned ("https://" ++ host)%string.
Proof.
  split; [reflexivity|].
  destruct (buildRpcUrl_public
              (credentials "bsc" "public" (Some "ignored") None)
              _ eq_refl eq_refl eq_refl) as [host [_ H]].
  exists host. exact H.
Defined.

Lemma buildRpcUrl_scheme_witness :
  buildRpcUrl (credentials "base" "ankr" (Some "KEY123") None) =
    Returned "https://rpc.ankr.com/base/KEY123" /\
  (customRpcUrl (credentials "base" "ankr" (Some "KEY123") None) =
     Some "https://rpc.ankr.com/base/KEY123" \/
   startsWith "https://rpc.ankr.com/base/KEY123" "https://" = true).
Proof.
  split; [reflexivity|].
  exact (buildRpcUrl_scheme
           (credentials "base" "ankr" (Some "KEY123") None)
           "https://rpc.ankr.com/base/KEY123" eq_refl).
Defined.

Lemma buildRpcUrl_default_arm_witness :
  inherited "toString" = true /\
  buildRpcUrl (credentials "mainnet" "toString" (Some "KEY123") None) =
  Threw "Unknown RPC provider: toString".
Proof.
  split; [reflexivity|].
  refine (proj2 (buildRpcUrl_default_arm
                   (credentials "mainnet" "toString" (Some "KEY123") None))
                _).
  repeat split. discriminate.
Defined.

(** A provider name that is merely unknown does not get that far. *)
Example unknown_provider_error :
  buildRpcUrl (credentials "mainnet" "chainstack" (Some "KEY123") None) =
  Threw "Provider chainstack not available for network: mainnet".
Proof. reflexivity. Qed.

(** An inherited member as the network: the guard passes and the read of
    its [rpcUrls] fails. *)
Example inherited_network_error :
  buildRpcUrl (credentials "constructor" "public" None None) =
    Threw "Cannot read properties of undefined (reading 'public')" /\
  buildRpcUrl (credentials "constructor" "infura" None None) =
    Threw "API key is required for infura provider" /\
  buildRpcUrl (credentials "constructor" "infura" (Some "KEY123") None) =
    Threw "Cannot read properties of undefined (reading 'infura')" /\
  buildRpcUrl (credentials "ropsten" "public" None None) =
    Threw "Unknown network: ropsten".
Proof. repeat split; reflexivity. Qed.

(** With a custom URL the network is first looked at by
    [createProvider]: an identifier the registry does not have fails
    there, at the read of [chainId] or in the provider's constructor. *)
Example createProvider_without_descriptor :
  createProvider (credentials "ropsten" "custom" None
                    (Some "http://localhost:8545")) =
    Threw "Cannot read properties of undefined (reading 'chainId')" /\
  createProvider (credentials "toString" "custom" None
                    (Some "http://localhost:8545")) =
    Threw "invalid network object name or chainId".
Proof. split; reflexivity. Qed.

Lemma buildWsUrl_available_witness :
  present (customWsUrl (credentials "sepolia" "infura" (Some "KEY123") None))
    = None /\
  (buildWsUrl (credentials "sepolia" "infura" (Some "KEY123") None) <> None
   <-> ("infura" = "alchemy" \/ "infura" = "infura") /\
       ("sepolia" = "mainnet" \/ "sepolia" = "sepolia")).
Proof.
  split; [reflexivity|].
  exact (buildWsUrl_available
           (credentials "sepolia" "infura" (Some "KEY123") None) eq_refl).
Defined.

Example buildWsUrl_sepolia_infura :
  buildWsUrl (credentials "sepolia" "infura" (Some "KEY123") None) =
  Some "wss://sepolia.infura.io/ws/v3/KEY123".
Proof. reflexivity. Qed.

Lemma buildWsUrl_without_key_witness :
  present (customWsUrl (credentials "mainnet" "alchemy" None None)) = None /\
  apiKey (credentials "mainnet" "alchemy" None None) = None /\
  buildWsUrl (credentials "mainnet" "alchemy" None None) =
    Some "wss://eth-mainnet.g.alchemy.com/v2/undefined" /\
  buildRpcUrl (credentials "mainnet" "alchemy" None None) =
    Threw "API key is required for alchemy provider".
Proof.
  do 2 (split; [reflexivity|]).
  split; [reflexivity|].
  exact (proj2 (buildWsUrl_without_key
                  (credentials "mainnet" "alchemy" None None)
                  eq_refl (or_introl eq_refl) (or_introl eq_refl) eq_refl)).
Defined.

Lemma getNetworkConfig_chainId_witness :
  getNetworkConfig (credentials "custom" "custom" None
                      (Some "http://localhost:8545")) =
    Some (withChainId (mk "Custom Network" 0 "ETH" "" false true
                          None None None None None) 1) /\
  chainId (withChainId (mk "Custom Network" 0 "ETH" "" false true
                           None None None None None) 1) <> 0.
Proof.
  split; [reflexivity|].
  exact (proj1 (getNetworkConfig_chainId
                  (credentials "custom" "custom" None
                     (Some "http://localhost:8545")) _ eq_refl)).
Defined.

Lemma createWallet_prefix_witness :
  truthy privateKey64 = true /\
  startsWith privateKey64 "0x" = false /\
  createWallet walletLib (keyCredentials privateKey64) sepoliaProvider =
  createWallet walletLib (keyCredentials ("0x" ++ privateKey64))
               sepoliaProvider.
Proof.
  do 2 (split; [reflexivity|]).
  exact (proj1 (createWallet_prefix walletLib
                  (keyCredentials privateKey64)
                  (keyCredentials ("0x" ++ privateKey64))
                  sepoliaProvider privateKey64
                  eq_refl eq_refl eq_refl eq_refl eq_refl eq_refl)).
Defined.

Lemma createWallet_default_path_witness :
  present (derivationPath (phraseCredentials (Some ""))) = None /\
  createWallet walletLib (phraseCredentials (Some "")) sepoliaProvider =
  createWallet walletLib (phraseCredentials (Some "m/44'/60'/0'/0/0"))
               sepoliaProvider.
Proof.
  split; [reflexivity|].
  exact (createWallet_default_path walletLib
           (phraseCredentials (Some ""))
           (phraseCredentials (Some "m/44'/60'/0'/0/0"))
           sepoliaProvider eq_refl eq_refl eq_refl eq_refl eq_refl).
Defined.

Lemma createConnection_readOnly_witness :
  createConnection walletLib (keyCredentials privateKey64) =
    Returned keyConnection /\
  (isReadOnly keyConnection = true <->
   walletType (keyCredentials privateKey64) = "none").
Proof.
  split; [reflexivity|].
  exact (proj1 (createConnection_readOnly walletLib
                  (keyCredentials privateKey64) keyConnection eq_refl)).
Defined.

Lemma createConnectionFromCredentials_defaults_witness :
  present (cd_network emptyCredentialData) = None /\
  present (cd_rpcProvider emptyCredentialData) = None /\
  present (cd_walletType emptyCredentialData) = None /\
  exists conn,
    createConnectionFromCredentials walletLib emptyCredentialData =
      Returned conn /\
    isReadOnly conn = true.
Proof.
  do 3 (split; [reflexivity|]).
  eexists. split.
  - exact (createConnectionFromCredentials_defaults walletLib
             emptyCredentialData eq_refl eq_refl eq_refl).
  - reflexivity.
Defined.

End TransportRuns.

(* ====================================================================== *)
(** * Further properties of the utilities *)
(* ====================================================================== *)

Module AddressUtils.
Import Transport Utils Checksum.

Lemma length_append s t :
  String.length (s ++ t)%string = (String.length s + String.length t)%nat.
Proof. induction s as [|c s IH]; cbn; [reflexivity | rewrite IH; reflexivity]. Qed.

Lemma length_substring n m s :
  (n + m <= String.length s)%nat ->
  String.length (String.substring n m s) = m.
Proof.
  revert n m. induction s as [|c s IH]; intros n m H; cbn in H.
  - assert (n = 0%nat) by lia. assert (m = 0%nat) by lia. subst. reflexivity.
  - destruct n as [|n]; cbn.
    + destruct m as [|m]; cbn; [reflexivity|].
      rewrite (IH 0%nat m) by lia. reflexivity.
    + apply IH. lia.
Qed.

Lemma substring_all s : String.substring 0 (String.length s) s = s.
Proof. induction s as [|c s IH]; cbn; [reflexivity | rewrite IH; reflexivity]. Qed.

(** What the library returns is the checksum of the prefixed input. *)
Lemma getAddress_Returned x y :
  Ethers.getAddress x = Returned y ->
  exists body,
    Ethers.prefixed x = ("0x" ++ body)%string /\
    Ethers.hex40 body = true /\
    y = Ethers.getChecksumAddress ("0x" ++ body).
Proof.
  unfold Ethers.getAddress.
  destruct (Ethers.matches_address x) eqn:Hm; [|discriminate].
  destruct (matches_address_shape x Hm) as [body [Hp Hh]].
  cbn zeta. rewrite Hp.
  destruct (_ && _); [discriminate|].
  intros H. injection H as <-. exists body. auto.
Qed.

Lemma checksumAddress_Returned x y :
  checksumAddress x = Returned y <-> Ethers.getAddress x = Returned y.
Proof.
  unfold checksumAddress. cbn [isAddress getAddress ethers].
  unfold Ethers.isAddress.
  destruct (Ethers.getAddress x); cbn; split; congruence.
Qed.

Lemma length_checksummed body :
  Ethers.hex40 body = true ->
  String.length (Ethers.getChecksumAddress ("0x" ++ body)) = 42%nat.
Proof.
  intros H. rewrite getChecksumAddress_0x. cbn [String.append String.length].
  rewrite length_apply_case, length_toLowerCase.
  unfold Ethers.hex40 in H. apply andb_true_iff in H as [H _].
  apply Nat.eqb_eq in H. rewrite H. reflexivity.
Qed.

Lemma checksumAddress_length x y :
  checksumAddress x = Returned y -> String.length y = 42%nat.
Proof.
  intros H. apply checksumAddress_Returned in H.
  destruct (getAddress_Returned x y H) as [body [_ [Hh ->]]].
  apply length_checksummed, Hh.
Qed.

(** [checksumAddress] and [validateAddress] return an address that they
    accept and return unchanged: the checksummed form is a fixed point,
    and it has 42 characters. *)
Theorem checksumAddress_fixed x y :
  checksumAddress x = Returned y ->
  checksumAddress y = Returned y /\
  validateAddress y = Returned y /\
  isValidAddress y = true /\
  String.length y = 42%nat.
Proof.
  intros H. apply checksumAddress_Returned in H.
  destruct (getAddress_Returned x y H) as [body [_ [Hh ->]]].
  pose proof (getAddress_checksummed body Hh) as Hfix.
  assert (Hc : checksumAddress (Ethers.getChecksumAddress ("0x" ++ body)) =
               Returned (Ethers.getChecksumAddress ("0x" ++ body)))
    by (apply checksumAddress_Returned, Hfix).
  repeat split.
  - exact Hc.
  - exact Hc.
  - unfold isValidAddress. cbn [isAddress ethers]. unfold Ethers.isAddress.
    rewrite Hfix. reflexivity.
  - apply length_checksummed, Hh.
Qed.

Lemma all_hex_no_x s :
  Ethers.all_chars Ethers.is_hex s = true -> startsWith s "0x" = false.
Proof.
  destruct s as [|a [|b r]]; cbn; try reflexivity.
  - intros _. apply andb_false_r.
  - intros H. apply andb_true_iff in H as [_ H].
    apply andb_true_iff in H as [Hb _].
    destruct (Ascii.eqb_spec b "x"%char) as [->|_];
      [discriminate | apply andb_false_r].
Qed.

Lemma toLowerCase_idempotent s : toLowerCase (toLowerCase s) = toLowerCase s.
Proof. apply toLowerCase_fixed, toLowerCase_not_upper. Qed.

Lemma no_hex_upper_toLowerCase s :
  Ethers.some_char Ethers.is_hex_upper (toLowerCase s) = false.
Proof.
  induction s as [|c r IH]; cbn; [reflexivity|]. rewrite IH, orb_false_r.
  clear. each_char c.
Qed.

Lemma toLowerCase_append s t :
  toLowerCase (s ++ t) = (toLowerCase s ++ toLowerCase t)%string.
Proof. induction s as [|c s IH]; cbn; [reflexivity | rewrite IH; reflexivity]. Qed.

(** The shape of an accepted input survives lower-casing. *)
Lemma prefixed_toLowerCase x body :
  Ethers.matches_address x = true ->
  Ethers.prefixed x = ("0x" ++ body)%string ->
  Ethers.matches_address (toLowerCase x) = true /\
  Ethers.prefixed (toLowerCase x) = ("0x" ++ toLowerCase body)%string.
Proof.
  unfold Ethers.matches_address, Ethers.prefixed.
  destruct (startsWith x "0x") eqn:Hp.
  - intros Hh ->. cbn [String.append toLowerCase].
    change (lower_char "0") with "0"%char.
    change (lower_char "x") with "x"%char.
    cbn -[Ethers.hex40]. cbn -[Ethers.hex40] in Hh.
    split; [|reflexivity].
    unfold Ethers.hex40 in *. apply andb_true_iff in Hh as [Hl Ha].
    rewrite length_toLowerCase, Hl, (all_hex_toLowerCase _ Ha). reflexivity.
  - intros Hh E. injection E as <-.
    assert (Hh' : Ethers.hex40 (toLowerCase x) = true).
    { unfold Ethers.hex40 in *. apply andb_true_iff in Hh as [Hl Ha].
      rewrite length_toLowerCase, Hl, (all_hex_toLowerCase _ Ha).
      reflexivity. }
    assert (Hn : startsWith (toLowerCase x) "0x" = false).
    { apply all_hex_no_x. unfold Ethers.hex40 in Hh'.
      apply andb_true_iff in Hh' as [_ Ha]. exact Ha. }
    rewrite Hn. split; [exact Hh' | reflexivity].
Qed.

(** The checksum does not depend on the letter case of its input: an
    accepted address and its lower-case spelling checksum to the same
    text. *)
Theorem checksumAddress_lowercase x y :
  checksumAddress x = Returned y ->
  checksumAddress (toLowerCase x) = Returned y.
Proof.
  intros H. apply checksumAddress_Returned in H.
  apply checksumAddress_Returned.
  assert (Hm : Ethers.matches_address x = true).
  { unfold Ethers.getAddress in H.
    destruct (Ethers.matches_address x); [reflexivity | discriminate]. }
  destruct (getAddress_Returned x y H) as [body [Hp [Hh ->]]].
  destruct (prefixed_toLowerCase x body Hm Hp) as [Hm' Hp'].
  rewrite (getAddress_accepts (toLowerCase x) Hm'
             (or_introl (no_hex_upper_toLowerCase x))).
  rewrite Hp', !getChecksumAddress_0x, toLowerCase_idempotent. reflexivity.
Qed.

Lemma apply_case_zeros n nib :
  Ethers.apply_case (string_of_list_ascii (repeat "0"%char n)) nib =
  string_of_list_ascii (repeat "0"%char n).
Proof.
  revert nib. induction n as [|n IH]; intros [|k nib]; cbn; try reflexivity.
  rewrite IH. destruct (8 <=? k)%N; reflexivity.
Qed.

(** On a checksummed address [isZeroAddress] holds exactly of the zero
    address; and an accepted address written with its [0x] is judged as
    its checksummed form is. *)
Theorem isZeroAddress_checksummed x y :
  checksumAddress x = Returned y ->
  (isZeroAddress y = true <-> y = ZeroAddress) /\
  (startsWith x "0x" = true -> isZeroAddress x = isZeroAddress y).
Proof.
  intros H. apply checksumAddress_Returned in H.
  destruct (getAddress_Returned x y H) as [body [Hp [Hh ->]]].
  rewrite getChecksumAddress_0x.
  assert (Hlow : toLowerCase
            ("0x" ++ Ethers.apply_case (toLowerCase body)
                       (Ethers.case_nibbles (toLowerCase body))) =
          ("0x" ++ toLowerCase body)%string).
  { cbn [String.append toLowerCase].
    change (lower_char "0") with "0"%char.
    change (lower_char "x") with "x"%char.
    rewrite (toLowerCase_apply_case _ _ (toLowerCase_not_upper body)).
    reflexivity. }
  split.
  - unfold isZeroAddress. rewrite Hlow. split.
    + intros E. apply String.eqb_eq in E.
      change (toLowerCase ZeroAddress) with ZeroAddress in E.
      unfold ZeroAddress in E. injection E as E. rewrite E.
      change "0000000000000000000000000000000000000000"
        with (string_of_list_ascii (repeat "0"%char 40)).
      rewrite apply_case_zeros. reflexivity.
    + intros E. rewrite <- Hlow, E. reflexivity.
  - intros Hx. unfold Ethers.prefixed in Hp. rewrite Hx in Hp. subst x.
    unfold isZeroAddress. rewrite Hlow. reflexivity.
Qed.

Lemma slice_head s n :
  0 <= n <= Z.of_nat (String.length s) ->
  slice s 0 (Some n) = String.substring 0 (Z.to_nat n) s.
Proof.
  intros H. unfold slice. change (0 <? 0) with false. cbn iota.
  destruct (Z.ltb_spec n 0); [lia|].
  f_equal; lia.
Qed.

Lemma slice_tail s n :
  0 < n <= Z.of_nat (String.length s) ->
  slice s (- n) None =
  String.substring (String.length s - Z.to_nat n) (Z.to_nat n) s.
Proof.
  intros H. unfold slice.
  destruct (Z.ltb_spec (- n) 0); [|lia].
  f_equal; lia.
Qed.

Lemma slice_tail_0 s : slice s (- 0) None = s.
Proof.
  unfold slice. change (- 0 <? 0) with false. change (- 0) with 0.
  cbn iota.
  replace (Z.to_nat (Z.min 0 (Z.of_nat (String.length s)))) with 0%nat
    by lia.
  replace (Z.to_nat _) with (String.length s) by lia.
  apply substring_all.
Qed.

(** [shortenAddress] keeps the [0x], the first [chars] and the last
    [chars] digits of the checksummed address around three dots, so the
    result has [2 chars + 5] characters for [chars] from 1 to 40; with
    [chars = 0] the tail is the whole address, because [slice(-0)] is
    [slice(0)]. *)
Theorem shortenAddress_shape x y chars :
  checksumAddress x = Returned y ->
  (1 <= chars <= 40 ->
   exists short,
     shortenAddress x chars = Returned short /\
     short = (String.substring 0 (Z.to_nat chars + 2) y ++ "..."
              ++ String.substring (42 - Z.to_nat chars)
                                  (Z.to_nat chars) y)%string /\
     Z.of_nat (String.length short) = 2 * chars + 5) /\
  (chars = 0 ->
   shortenAddress x chars = Returned ("0x..." ++ y)%string).
Proof.
  intros H.
  pose proof (checksumAddress_length x y H) as Hlen.
  unfold shortenAddress. rewrite H. split.
  - intros Hc. eexists. split; [reflexivity|].
    rewrite slice_head, slice_tail by (rewrite Hlen; lia).
    rewrite Hlen.
    replace (Z.to_nat (chars + 2)) with (Z.to_nat chars + 2)%nat by lia.
    split; [reflexivity|].
    rewrite !length_append, !length_substring by (rewrite Hlen; lia).
    cbn [String.length]. lia.
  - intros ->. rewrite slice_tail_0, slice_head by (rewrite Hlen; lia).
    apply checksumAddress_Returned in H.
    destruct (getAddress_Returned x y H) as [body [_ [_ ->]]].
    rewrite getChecksumAddress_0x.
    change (Z.to_nat (0 + 2)) with 2%nat.
    set (digits := Ethers.apply_case _ _).
    assert (E : String.substring 0 2 ("0x" ++ digits) = "0x")
      by (cbn; destruct digits; reflexivity).
    rewrite E. reflexivity.
Qed.

End AddressUtils.

Module JsonSafe.
Import Utils.

(** Induction over values that reaches into arrays and objects. *)
Section ValueInduction.
Variable P : Value -> Prop.
Hypothesis Hnull : P VNull.
Hypothesis Hundefined : P VUndefined.
Hypothesis Hbool : forall b, P (VBool b).
Hypothesis Hnumber : forall n, P (VNumber n).
Hypothesis Hstring : forall s, P (VString s).
Hypothesis Hbigint : forall n, P (VBigInt n).
Hypothesis Harray : forall items, Forall P items -> P (VArray items).
Hypothesis Hobject :
  forall entries, Forall (fun entry => P (snd entry)) entries ->
                  P (VObject entries).

Fixpoint value_induction (v : Value) : P v :=
  match v with
  | VNull => Hnull
  | VUndefined => Hundefined
  | VBool b => Hbool b
  | VNumber n => Hnumber n
  | VString s => Hstring s
  | VBigInt n => Hbigint n
  | VArray items =>
      Harray items
        ((fix all (l : list Value) : Forall P l :=
            match l with
            | [] => Forall_nil P
            | x :: r => Forall_cons x (value_induction x) (all r)
            end) items)
  | VObject entries =>
      Hobject entries
        ((fix all (l : list (string * Value))
            : Forall (fun entry => P (snd entry)) l :=
            match l with
            | [] => Forall_nil _
            | e :: r =>
                Forall_cons e (value_induction (snd e)) (all r)
            end) entries)
  end.

End ValueInduction.

(** The loop over the entries, as a filter and a map. *)
Lemma toJsonSafe_object entries :
  toJsonSafe (VObject entries) =
  VObject (map (fun entry => (fst entry, toJsonSafe (snd entry)))
               (filter (fun entry => assignable (fst entry)) entries)).
Proof.
  cbn [toJsonSafe]. f_equal.
  induction entries as [|[key val] rest IH]; [reflexivity|].
  cbn [filter fst snd]. destruct (assignable key); cbn [map fst snd];
    rewrite IH; reflexivity.
Qed.

Lemma filter_assignable_map (f : Value -> Value) entries :
  filter (fun entry => assignable (fst entry))
         (map (fun entry => (fst entry, f (snd entry))) entries) =
  map (fun entry => (fst entry, f (snd entry)))
      (filter (fun entry => assignable (fst entry)) entries).
Proof.
  induction entries as [|[key val] rest IH]; [reflexivity|].
  cbn [map filter fst snd]. destruct (assignable key); cbn [map fst snd];
    rewrite IH; reflexivity.
Qed.

Lemma filter_filter {A} (p : A -> bool) l :
  filter p (filter p l) = filter p l.
Proof.
  induction l as [|x l IH]; [reflexivity|]. cbn.
  destruct (p x) eqn:E; cbn; rewrite ?E, IH; reflexivity.
Qed.

Lemma Forall_filter {A} (P : A -> Prop) (p : A -> bool) l :
  Forall P l -> Forall P (filter p l).
Proof.
  induction 1 as [|x l Hx _ IH]; cbn; [constructor|].
  destruct (p x); [constructor; assumption | assumption].
Qed.

(** Converting twice is converting once. *)
Theorem toJsonSafe_idempotent value :
  toJsonSafe (toJsonSafe value) = toJsonSafe value.
Proof.
  induction value as [| | | | | |items IH|entries IH] using value_induction;
    try reflexivity.
  - cbn [toJsonSafe]. f_equal. rewrite map_map.
    apply map_ext_in. intros x Hx.
    apply (proj1 (Forall_forall _ _) IH x Hx).
  - rewrite !toJsonSafe_object. f_equal.
    rewrite filter_assignable_map, filter_filter, map_map.
    apply map_ext_in. intros e He. cbn [fst snd]. f_equal.
    apply (proj1 (Forall_forall _ _)
             (Forall_filter _ (fun entry => assignable (fst entry)) _ IH)
             e He).
Qed.

(** The result holds no bigint at any depth: it can be serialised. *)
Theorem toJsonSafe_bigintFree value : bigintFree (toJsonSafe value) = true.
Proof.
  induction value as [| | | | | |items IH|entries IH] using value_induction;
    try reflexivity.
  - cbn [toJsonSafe bigintFree]. rewrite forallb_forall.
    intros y Hy. apply in_map_iff in Hy as [x [<- Hx]].
    apply (proj1 (Forall_forall _ _) IH x Hx).
  - rewrite toJsonSafe_object. cbn [bigintFree]. rewrite forallb_forall.
    intros y Hy. apply in_map_iff in Hy as [e [<- He]]. cbn [snd].
    apply filter_In in He as [He _].
    apply (proj1 (Forall_forall _ _) IH e He).
Qed.

(** A value without bigints and without ["__proto__"] keys comes back
    unchanged. *)
Theorem toJsonSafe_identity value :
  bigintFree value = true ->
  protoFree value = true ->
  toJsonSafe value = value.
Proof.
  induction value as [| | | | | |items IH|entries IH] using value_induction;
    try reflexivity; try discriminate.
  - cbn [bigintFree protoFree toJsonSafe]. intros Hb Hp. f_equal.
    rewrite forallb_forall in Hb, Hp. rewrite Forall_forall in IH.
    rewrite <- (map_id items) at 2. apply map_ext_in.
    intros x Hx. auto.
  - cbn [bigintFree protoFree]. intros Hb Hp. rewrite toJsonSafe_object.
    f_equal. rewrite forallb_forall in Hb, Hp. rewrite Forall_forall in IH.
    assert (Hf : filter (fun entry => assignable (fst entry)) entries
                 = entries).
    { apply forallb_filter_id. apply forallb_forall. intros e He.
      specialize (Hp e He). apply andb_true_iff in Hp as [Hp _]. exact Hp. }
    rewrite Hf. rewrite <- (map_id entries) at 2. apply map_ext_in.
    intros [key val] He. cbn [fst snd]. f_equal.
    apply (IH _ He); [apply (Hb _ He)|].
    specialize (Hp _ He). apply andb_true_iff in Hp as [_ Hp]. exact Hp.
Qed.

(** The unit tests of [src/utils/index.test.ts] for [toJsonSafe]. *)
Example test_toJsonSafe :
  toJsonSafe (VBigInt 123) = VString "123" /\
  toJsonSafe (VArray [VBigInt 1; VBigInt 2]) =
    VArray [VString "1"; VString "2"] /\
  toJsonSafe (VObject [("value", VBigInt 100);
                       ("nested", VObject [("amount", VBigInt 50)])]) =
    VObject [("value", VString "100");
             ("nested", VObject [("amount", VString "50")])] /\
  toJsonSafe (VString "string") = VString "string" /\
  toJsonSafe (VNumber 123) = VNumber 123 /\
  toJsonSafe VNull = VNull /\
  toJsonSafe VUndefined = VUndefined.
Proof. repeat split; vm_compute; reflexivity. Qed.

End JsonSafe.

Module UtilsRuns.
Import Transport Utils Scenario AddressUtils JsonSafe.

Lemma checksumAddress_fixed_witness :
  checksumAddress "0xd8da6bf26964af9d7eed9e03e53415d37aa96045" =
    Returned "0xd8dA6BF26964aF9D7eEd9e03E53415D37aA96045" /\
  checksumAddress "0xd8dA6BF26964aF9D7eEd9e03E53415D37aA96045" =
    Returned "0xd8dA6BF26964aF9D7eEd9e03E53415D37aA96045".
Proof.
  assert (H : checksumAddress "0xd8da6bf26964af9d7eed9e03e53415d37aa96045" =
              Returned "0xd8dA6BF26964aF9D7eEd9e03E53415D37aA96045")
    by (vm_compute; reflexivity).
  split; [exact H|].
  exact (proj1 (checksumAddress_fixed _ _ H)).
Defined.

Lemma checksumAddress_lowercase_witness :
  checksumAddress "0xD8DA6BF26964AF9D7EED9E03E53415D37AA96045" =
    Returned "0xd8dA6BF26964aF9D7eEd9e03E53415D37aA96045" /\
  checksumAddress (toLowerCase "0xD8DA6BF26964AF9D7EED9E03E53415D37AA96045") =
    Returned "0xd8dA6BF26964aF9D7eEd9e03E53415D37aA96045".
Proof.
  assert (H : checksumAddress "0xD8DA6BF26964AF9D7EED9E03E53415D37AA96045" =
              Returned "0xd8dA6BF26964aF9D7eEd9e03E53415D37aA96045")
    by (vm_compute; reflexivity).
  split; [exact H|].
  exact (checksumAddress_lowercase _ _ H).
Defined.

Lemma isZeroAddress_checksummed_witness :
  checksumAddress "0000000000000000000000000000000000000000" =
    Returned ZeroAddress /\
  (isZeroAddress ZeroAddress = true <-> ZeroAddress = ZeroAddress).
Proof.
  assert (H : checksumAddress "0000000000000000000000000000000000000000" =
              Returned ZeroAddress)
    by (vm_compute; reflexivity).
  split; [exact H|].
  exact (proj1 (isZeroAddress_checksummed _ _ H)).
Defined.

(** Without its [0x] the zero address is accepted and checksummed, but
    [isZeroAddress] does not recognise it. *)
Example isZeroAddress_unprefixed :
  isValidAddress "0000000000000000000000000000000000000000" = true /\
  isZeroAddress "0000000000000000000000000000000000000000" = false.
Proof. split; vm_compute; reflexivity. Qed.

Lemma shortenAddress_shape_witness :
  checksumAddress "0xd8da6bf26964af9d7eed9e03e53415d37aa96045" =
    Returned "0xd8dA6BF26964aF9D7eEd9e03E53415D37aA96045" /\
  1 <= 4 <= 40 /\
  exists short,
    shortenAddress "0xd8da6bf26964af9d7eed9e03e53415d37aa96045" 4 =
      Returned short /\
    short = "0xd8dA...6045" /\
    Z.of_nat (String.length short) = 2 * 4 + 5.
Proof.
  assert (H : checksumAddress "0xd8da6bf26964af9d7eed9e03e53415d37aa96045" =
              Returned "0xd8dA6BF26964aF9D7eEd9e03E53415D37aA96045")
    by (vm_compute; reflexivity).
  split; [exact H|]. split; [lia|].
  exact (proj1 (shortenAddress_shape _ _ 4 H) ltac:(lia)).
Defined.

Example shortenAddress_zero_chars :
  shortenAddress "0xd8da6bf26964af9d7eed9e03e53415d37aa96045" 0 =
  Returned "0x...0xd8dA6BF26964aF9D7eEd9e03E53415D37aA96045".
Proof. vm_compute. reflexivity. Qed.

Lemma toJsonSafe_identity_witness :
  bigintFree (VObject [("name", VString "DAI"); ("decimals", VNumber 18);
                       ("tags", VArray [VBool true; VNull])]) = true /\
  protoFree (VObject [("name", VString "DAI"); ("decimals", VNumber 18);
                      ("tags", VArray [VBool true; VNull])]) = true /\
  toJsonSafe (VObject [("name", VString "DAI"); ("decimals", VNumber 18);
                       ("tags", VArray [VBool true; VNull])]) =
    VObject [("name", VString "DAI"); ("decimals", VNumber 18);
             ("tags", VArray [VBool true; VNull])].
Proof.
  do 2 (split; [reflexivity|]).
  exact (toJsonSafe_identity
           (VObject [("name", VString "DAI"); ("decimals", VNumber 18);
                     ("tags", VArray [VBool true; VNull])])
           eq_refl eq_refl).
Defined.

End UtilsRuns.


(* ====================================================================== *)
(** * Further properties of the trigger *)
(* ====================================================================== *)

Section CursorProgress.
Import Trigger.
Context {lib : AddressLib}.

Lemma staticData_eq (sd : StaticData) w :
  lastBlock sd = Some w -> sd = {| lastBlock := Some w |}.
Proof. destruct sd as [lb]. cbn. intros ->. reflexivity. Qed.

(** One cycle at chain head [head] with a batch size of at least one. *)
Lemma poll_step p h provider u head w :
  connect h = Returned u ->
  getBlockNumber provider = Returned head ->
  1 <= batchSize p ->
  fst (poll p h provider {| lastBlock := Some w |}) =
  {| lastBlock := Some (Z.max w (Z.min head (w + batchSize p))) |}.
Proof.
  intros Hc Hh Hb.
  destruct (Z_le_gt_dec head w) as [Hidle | Hnew].
  - rewrite (poll_idle p h provider _ u head Hc Hh) by exact Hidle.
    cbn. do 2 f_equal. lia.
  - rewrite (poll_processing p h provider _ u head Hc Hh) by (cbn; lia).
    cbn. do 2 f_equal. lia.
Qed.

Lemma last_cons {A} (a d : A) l : last (a :: l) d = last l a.
Proof.
  revert a d. induction l as [|b l IH]; intros a d; [reflexivity|].
  change (last (a :: b :: l) d) with (last (b :: l) d).
  rewrite !IH. reflexivity.
Qed.

(** Catching up.  Polled [n] times against an endpoint whose head stays at
    [head], with a batch size of at least one, the watermark ends at
    [min(head, w + n * batchSize)] (or stays at [w] when the head is not
    ahead of it): each cycle gains a full batch until the head is
    reached. *)
Theorem catch_up p h provider u head n w :
  connect h = Returned u ->
  getBlockNumber provider = Returned head ->
  1 <= batchSize p ->
  last (watermarks
          (repeat {| cy_params := p; cy_host := h;
                     cy_provider := provider |} n)
          {| lastBlock := Some w |})
       (Some w) =
  Some (Z.max w (Z.min head (w + Z.of_nat n * batchSize p))).
Proof.
  intros Hc Hh Hb. revert w. induction n as [|n IH]; intros w.
  - cbn. f_equal. lia.
  - cbn [repeat watermarks cy_params cy_host cy_provider].
    rewrite (poll_step p h provider u head w Hc Hh Hb).
    cbn [lastBlock]. rewrite last_cons, IH. f_equal.
    assert (0 <= Z.of_nat n * batchSize p) by nia.
    replace (Z.of_nat (S n) * batchSize p)
      with (batchSize p + Z.of_nat n * batchSize p) by lia.
    lia.
Qed.

(** A watermark that is set stays set, whatever the batch size; it
    changes only in a cycle that found the head ahead of it, to
    [min(head, w + batchSize)], and so never passes the chain head. *)
Theorem watermark_bounded p h provider sd w :
  lastBlock sd = Some w ->
  exists w',
    lastBlock (fst (poll p h provider sd)) = Some w' /\
    (forall head, getBlockNumber provider = Returned head ->
       w' <= Z.max w head) /\
    (w' <> w ->
     exists head,
       getBlockNumber provider = Returned head /\ w < head /\
       w' = Z.min head (w + batchSize p)).
Proof.
  intros Hw.
  destruct (connect h) as [u|e] eqn:Hc.
  2:{ rewrite (poll_connect_threw _ _ _ _ _ Hc). exists w.
      repeat split; [exact Hw | lia | congruence]. }
  destruct (getBlockNumber provider) as [head|e] eqn:Hh.
  2:{ rewrite (poll_head_threw _ _ _ _ _ _ Hc Hh). exists w.
      repeat split; [exact Hw | discriminate | congruence]. }
  assert (Hs : startingWatermark p sd head = w)
    by (unfold startingWatermark; rewrite Hw; reflexivity).
  destruct (Z_le_gt_dec head w) as [Hidle | Hnew].
  - rewrite (poll_idle p h provider sd u head Hc Hh) by (rewrite Hs; lia).
    rewrite Hs. exists w. repeat split; [lia | congruence].
  - rewrite (poll_processing p h provider sd u head Hc Hh)
      by (rewrite Hs; lia).
    rewrite Hs. cbn [fst lastBlock].
    exists (Z.min head (w + 1 + batchSize p - 1)). repeat split.
    + intros head' E. injection E as <-. lia.
    + intros _. exists head. repeat split; lia.
Qed.





End CursorProgress.

Section EventBranches.
Import Trigger Utils.
Context {lib : AddressLib}.

Lemma forBlocks_fetch provider includeTx count blockNum :
  (forall n, blockNum <= n < blockNum + Z.of_nat count ->
     returns (getBlock provider n includeTx) = true) ->
  forBlocks count blockNum (fun blockNum =>
    block <- request (CallGetBlock blockNum includeTx)
                     (getBlock provider blockNum includeTx) ;;
    match block with
    | Some block => ret [ItemBlock block includeTx]
    | None => ret []
    end) =
  {| calls := map (fun i => CallGetBlock (blockNum + Z.of_nat i) includeTx)
                  (seq 0 count);
     result := Returned
       (flat_map (fun i => fetchedBlock provider includeTx
                             (blockNum + Z.of_nat i))
                 (seq 0 count)) |}.
Proof.
  revert blockNum. induction count as [|count IH]; intros blockNum Hall.
  - reflexivity.
  - assert (Hcalls :
      map (fun i => CallGetBlock (blockNum + Z.of_nat i) includeTx)
          (seq 1 count) =
      map (fun i => CallGetBlock (blockNum + 1 + Z.of_nat i) includeTx)
          (seq 0 count)).
    { rewrite <- seq_shift, map_map. apply map_ext. intros i.
      f_equal. lia. }
    assert (Hitems :
      flat_map (fun i => fetchedBlock provider includeTx
                           (blockNum + Z.of_nat i)) (seq 1 count) =
      flat_map (fun i => fetchedBlock provider includeTx
                           (blockNum + 1 + Z.of_nat i)) (seq 0 count)).
    { rewrite <- seq_shift, !flat_map_concat_map, map_map. f_equal.
      apply map_ext. intros i. f_equal. lia. }
    cbn [forBlocks seq map flat_map]. rewrite Hcalls, Hitems.
    rewrite IH by (intros n Hn; apply Hall; lia).
    rewrite Z.add_0_r.
    specialize (Hall blockNum ltac:(lia)).
    destruct (getBlock provider blockNum includeTx) as [[block|]|e] eqn:E;
      [| |discriminate].
    + replace (fetchedBlock provider includeTx blockNum)
        with [ItemBlock block includeTx]
        by (unfold fetchedBlock; rewrite E; reflexivity).
      unfold bind, request, ret. cbn. rewrite app_nil_r. reflexivity.
    + replace (fetchedBlock provider includeTx blockNum)
        with (@nil Item)
        by (unfold fetchedBlock; rewrite E; reflexivity).
      unfold bind, request, ret. cbn. rewrite app_nil_r. reflexivity.
Qed.

(** With block details the new-block branch asks for each block of the
    range once, in ascending order, and emits the blocks the endpoint has;
    a block it answers [null] for is left out without an error. *)
Theorem newBlock_details p h provider fromBlock toBlock :
  includeBlockDetails p = true ->
  (forall n, fromBlock <= n <= toBlock ->
     returns (getBlock provider n (includeTransactions p)) = true) ->
  newBlock p h provider fromBlock toBlock =
  {| calls := map (fun i => CallGetBlock (fromBlock + Z.of_nat i)
                                         (includeTransactions p))
                  (seq 0 (span fromBlock toBlock));
     result := Returned
       (flat_map (fun i => fetchedBlock provider (includeTransactions p)
                             (fromBlock + Z.of_nat i))
                 (seq 0 (span fromBlock toBlock))) |}.
Proof.
  intros Hd Hall. unfold newBlock. rewrite Hd.
  apply forBlocks_fetch. intros n Hn. apply Hall. unfold span in Hn. lia.
Qed.

(** The contract-event branch: when the ABI has no such event it throws
    without a request; otherwise it emits one item per log of the answer,
    in order - a log that cannot be parsed is emitted too, with no
    arguments, not dropped. *)
Theorem contractEvent_one_item_per_log p h provider fromBlock toBlock
    found logs :
  eventFilter h (abi p) (contractAddress p) (eventName p) = Returned found ->
  queryEvent provider (contractAddress p) (eventName p)
             fromBlock toBlock = Returned logs ->
  if found then
    exists items,
      contractEvent p h provider fromBlock toBlock =
        {| calls := [CallQueryEvent (contractAddress p) (eventName p)
                                    fromBlock toBlock];
           result := Returned items |} /\
      map item_log items = map Some logs /\
      Forall2 (fun item log =>
                 forall e, parseLog h (abi p) log = Threw e ->
                           item = ItemEvent log (eventName p) [])
              items logs
  else
    contractEvent p h provider fromBlock toBlock =
      {| calls := [];
         result := Threw ("Event " ++ eventName p
                          ++ " not found in ABI")%string |}.
Proof.
  intros Hf Hq. unfold contractEvent. rewrite Hf.
  destruct found; [|reflexivity].
  unfold lift. unfold bind at 1. cbn [result calls negb].
  rewrite Hq, bind_request_returned.
  set (emit := fun log =>
         ItemEvent log (eventName p)
           match parseLog h (abi p) log with
           | Returned (Some args) => args
           | Returned None => []
           | Threw _ => []
           end).
  exists (map emit logs).
  rewrite (forEach_ret logs _ (fun log => [emit log]))
    by (apply Forall_forall; reflexivity).
  rewrite flat_map_concat_map.
  assert (Hc : List.concat (map (fun log => [emit log]) logs)
               = map emit logs).
  { clear. induction logs as [|l logs IH]; cbn; [reflexivity|].
    rewrite IH. reflexivity. }
  rewrite Hc. repeat split.
  - rewrite map_map. reflexivity.
  - clear. induction logs as [|l logs IH]; cbn; constructor; [|exact IH].
    intros e He. unfold emit. rewrite He. reflexivity.
Qed.

(** What the address-activity branch may emit for one transaction: at
    most one item; the transaction involves the watched address and is
    not below the minimum value; with ['incoming'] it is sent to the
    address and with ['outgoing'] it is sent from it; and the item is
    labelled ['outgoing'] whenever the address is the sender, so a
    transfer of the address to itself is reported as outgoing even under
    ['incoming']. *)
Theorem activityOf_sound activityType normalizedAddress minValueWei block
    blockNum tx item :
  In item (activityOf activityType normalizedAddress minValueWei block
                      blockNum tx) ->
  let isFrom := String.eqb (toLowerCase (tx_from tx)) normalizedAddress in
  let isTo := match tx_to tx with
              | Some to => String.eqb (toLowerCase to) normalizedAddress
              | None => false
              end in
  activityOf activityType normalizedAddress minValueWei block blockNum tx
    = [item] /\
  item = ItemActivity (if isFrom then "outgoing" else "incoming") tx
                      blockNum (block_timestamp block) /\
  (isFrom = true \/ isTo = true) /\
  minValueWei <= tx_value tx /\
  (activityType = "incoming" -> isTo = true) /\
  (activityType = "outgoing" -> isFrom = true).
Proof.
  intros Hin isFrom isTo. unfold activityOf in *. fold isFrom isTo in Hin |- *.
  destruct (negb isFrom && negb isTo) eqn:H1; [destruct Hin|].
  destruct (String.eqb activityType "incoming" && negb isTo) eqn:H2;
    [destruct Hin|].
  destruct (String.eqb activityType "outgoing" && negb isFrom) eqn:H3;
    [destruct Hin|].
  destruct (Z.ltb_spec (tx_value tx) minValueWei) as [H4 | H4];
    [destruct Hin|].
  destruct Hin as [<- | []].
  repeat split.
  - destruct isFrom, isTo; cbn in H1; auto; discriminate.
  - exact H4.
  - intros ->. destruct isTo; [reflexivity | discriminate].
  - intros ->. destruct isFrom; [reflexivity | discriminate].
Qed.

End EventBranches.

Section Activity.
Import Trigger Utils.
Context {lib : AddressLib}.

Lemma result_bind_Returned {A B} (m : Run A) (k : A -> Run B) b :
  result (bind m k) = Returned b ->
  exists a, result m = Returned a /\ result (k a) = Returned b.
Proof.
  unfold bind. destruct (result m) as [a|e]; cbn; [|discriminate].
  intros H. exists a. auto.
Qed.

(** Every item a block loop returns was pushed by the body at some block
    of the loop. *)
Lemma forBlocks_items (P : Z -> Item -> Prop) count blockNum body items :
  (forall n pushed,
     blockNum <= n < blockNum + Z.of_nat count ->
     result (body n) = Returned pushed -> Forall (P n) pushed) ->
  result (forBlocks count blockNum body) = Returned items ->
  Forall (fun item =>
            exists n, blockNum <= n < blockNum + Z.of_nat count /\ P n item)
         items.
Proof.
  revert blockNum items.
  induction count as [|count IH]; intros blockNum items Hbody Hres.
  - cbn in Hres. injection Hres as <-. constructor.
  - cbn [forBlocks] in Hres.
    apply result_bind_Returned in Hres as [pushed [Hp Hres]].
    apply result_bind_Returned in Hres as [rest [Hr Hres]].
    cbn in Hres. injection Hres as <-.
    apply Forall_app. split.
    + assert (Hn : blockNum <= blockNum < blockNum + Z.of_nat (S count))
        by lia.
      pose proof (Hbody blockNum pushed Hn Hp) as Hall.
      eapply Forall_impl; [|exact Hall].
      intros item Hi. exists blockNum. auto.
    + specialize (IH (blockNum + 1) rest).
      eapply Forall_impl; [|apply IH].
      * intros item [n [Hn Hi]]. exists n. split; [lia | exact Hi].
      * intros n xs Hn. apply Hbody. lia.
      * exact Hr.
Qed.

(** What an address-activity cycle can emit.  Every item reports a
    transaction of a block of the range that the endpoint returned; the
    transaction was sent by or to the watched address (compared in lower
    case) and is not below the minimum value; under ['incoming'] it was
    sent to the address and under ['outgoing'] by it; and the item is
    labelled ['outgoing'] whenever the address is the sender - so a
    transfer of the address to itself is reported as outgoing even under
    ['incoming']. *)
Theorem addressActivity_sound p h provider fromBlock toBlock items :
  result (addressActivity p h provider fromBlock toBlock) = Returned items ->
  exists address minWei,
    (startsWith (watchAddress p) "0x" = true ->
     address = toLowerCase (watchAddress p)) /\
    minValueWei h (minValue p) = Returned minWei /\
    Forall (fun item =>
      exists blockNum block tx,
        fromBlock <= blockNum <= toBlock /\
        getBlock provider blockNum true = Returned (Some block) /\
        In tx (prefetchedTransactions block) /\
        let isFrom := String.eqb (toLowerCase (tx_from tx)) address in
        let isTo := match tx_to tx with
                    | Some to => String.eqb (toLowerCase to) address
                    | None => false
                    end in
        item = ItemActivity (if isFrom then "outgoing" else "incoming") tx
                            blockNum (block_timestamp block) /\
        (isFrom = true \/ isTo = true) /\
        minWei <= tx_value tx /\
        (activityType p = "incoming" -> isTo = true) /\
        (activityType p = "outgoing" -> isFrom = true)) items.
Proof.
  unfold addressActivity. intros Hres.
  apply result_bind_Returned in Hres as [resolved [Hresolved Hres]].
  apply result_bind_Returned in Hres as [minWei [Hmin Hres]].
  exists (toLowerCase resolved), minWei. split; [|split].
  - intros Hx. rewrite Hx in Hresolved. cbn in Hresolved.
    injection Hresolved as <-. reflexivity.
  - exact Hmin.
  - eapply Forall_impl.
    2:{ eapply forBlocks_items
          with (P := fun n item =>
                  exists block tx,
                    getBlock provider n true = Returned (Some block) /\
                    In tx (prefetchedTransactions block) /\
                    In item (activityOf (activityType p)
                               (toLowerCase resolved) minWei block n tx)).
        2: exact Hres.
        intros n pushed Hn Hp.
        apply result_bind_Returned in Hp as [block [Hb Hp]].
        cbn in Hb. destruct block as [block|]; cbn in Hp;
          injection Hp as <-; [|constructor].
        apply Forall_forall. intros item Hitem.
        apply in_flat_map in Hitem as [tx [Htx Hin]].
        exists block, tx. auto. }
    intros item [n [Hn [block [tx [Hb [Htx Hin]]]]]].
    exists n, block, tx.
    destruct (activityOf_sound _ _ _ _ _ _ _ Hin)
      as [_ [Hitem [Hparty [Hval [Hinc Hout]]]]].
    unfold span in Hn.
    repeat split; try assumption; lia.
Qed.

End Activity.

Section TransferPassThrough.
Import Trigger Utils.
Context {lib : AddressLib}.

Lemma decodedItems_logs emit logs :
  (forall f t v l, item_log (emit f t v l) = Some l) ->
  map item_log (flat_map (decodedItems emit) logs) =
  map (fun log => Some (tl_log log)) (filter decoded logs).
Proof.
  intros Hemit. induction logs as [|log logs IH]; [reflexivity|].
  cbn [flat_map filter]. rewrite map_app, IH.
  unfold decodedItems at 1, decoded at 2.
  destruct (tl_args log) as [[[from to] value]|]; [|reflexivity].
  cbn. rewrite Hemit. reflexivity.
Qed.

Lemma unfiltered_body emit filterType filterAddress tokenAddress logs :
  String.eqb filterType "either" && truthy filterAddress = false ->
  returns (checksumAddress tokenAddress) = true ->
  forallb partiesAccepted logs = true ->
  Forall (fun log =>
    match tl_args log with
    | None => ret []
    | Some (from, to, value) =>
        if skippedByEither filterType filterAddress from to then ret []
        else
          address <- lift (checksumAddress tokenAddress) ;;
          from' <- lift (checksumAddress from) ;;
          to' <- lift (checksumAddress to) ;;
          ret [emit address from' to' value (tl_log log)]
    end = ret (decodedItems (emit (checksummed tokenAddress)) log)) logs.
Proof.
  intros Hno Htoken Hall. apply Forall_forall. intros log Hin.
  rewrite forallb_forall in Hall. specialize (Hall log Hin).
  unfold partiesAccepted, decodedItems, skippedByEither in *.
  destruct (tl_args log) as [[[from to] value]|]; [|reflexivity].
  rewrite Hno. apply andb_true_iff in Hall as [Hf Hto].
  rewrite !checksumAddress_returns by assumption. reflexivity.
Qed.

(** Under every filter setting other than ['either'] with an address, the
    transfer branches apply no filter of their own: the ['from'] or ['to']
    address goes into the log query as a topic, and every decoded log of
    the answer is emitted, in order.  That includes ['either'] with an
    empty address, which filters nothing. *)
Theorem transfers_without_post_filter p h provider fromBlock toBlock
    logs token :
  event p = "tokenTransfer" \/ event p = "nftTransfer" ->
  String.eqb (tokenFilterType p) "either"
    && truthy (tokenFilterAddress p) = false ->
  queryTransfer provider (transferAbiOf (event p)) (tokenAddress p)
    (transferFilter (tokenFilterType p) (tokenFilterAddress p))
    fromBlock toBlock = Returned logs ->
  (event p = "tokenTransfer" ->
   tokenInfo provider (tokenAddress p) = Returned token) ->
  returns (checksumAddress (tokenAddress p)) = true ->
  forallb partiesAccepted logs = true ->
  exists items,
    runEvent p h provider fromBlock toBlock =
      {| calls :=
           CallQueryTransfer (transferAbiOf (event p)) (tokenAddress p)
             (transferFilter (tokenFilterType p) (tokenFilterAddress p))
             fromBlock toBlock
           :: transferLookups (event p) (tokenAddress p);
         result := Returned items |} /\
    map item_log items =
      map (fun log => Some (tl_log log)) (filter decoded logs) /\
    (truthy (tokenFilterAddress p) = true ->
     (tokenFilterType p = "from" ->
      transferFilter (tokenFilterType p) (tokenFilterAddress p) =
        {| tf_from := Some (tokenFilterAddress p); tf_to := None |}) /\
     (tokenFilterType p = "to" ->
      transferFilter (tokenFilterType p) (tokenFilterAddress p) =
        {| tf_from := None; tf_to := Some (tokenFilterAddress p) |})).
Proof.
  intros Hev Hno Hq Hinfo Htoken Hparties.
  assert (Hfilter :
    truthy (tokenFilterAddress p) = true ->
    (tokenFilterType p = "from" ->
     transferFilter (tokenFilterType p) (tokenFilterAddress p) =
       {| tf_from := Some (tokenFilterAddress p); tf_to := None |}) /\
    (tokenFilterType p = "to" ->
     transferFilter (tokenFilterType p) (tokenFilterAddress p) =
       {| tf_from := None; tf_to := Some (tokenFilterAddress p) |})).
  { intros Ht. unfold transferFilter. rewrite Ht.
    split; intros ->; reflexivity. }
  unfold runEvent, transferAbiOf, transferLookups in *.
  destruct Hev as [Hev | Hev]; rewrite Hev in *;
    cbn [String.eqb Ascii.eqb Bool.eqb] in *.
  - exists (flat_map
              (decodedItems
                 (ItemTokenTransfer (checksummed (tokenAddress p)) token))
              logs).
    split; [|split; [apply decodedItems_logs; reflexivity | exact Hfilter]].
    unfold tokenTransfer. rewrite Hq, (Hinfo eq_refl).
    rewrite !bind_request_returned. cbn beta.
    rewrite (forEach_ret logs _ _
               (unfiltered_body
                  (fun a f t v l => ItemTokenTransfer a token f t v l)
                  (tokenFilterType p) (tokenFilterAddress p)
                  (tokenAddress p) logs Hno Htoken Hparties)).
    reflexivity.
  - exists (flat_map
              (decodedItems
                 (ItemNftTransfer (checksummed (tokenAddress p))))
              logs).
    split; [|split; [apply decodedItems_logs; reflexivity | exact Hfilter]].
    unfold nftTransfer. rewrite Hq.
    rewrite !bind_request_returned. cbn beta.
    rewrite (forEach_ret logs _ _
               (unfiltered_body
                  (fun a f t v l => ItemNftTransfer a f t v l)
                  (tokenFilterType p) (tokenFilterAddress p)
                  (tokenAddress p) logs Hno Htoken Hparties)).
    reflexivity.
Qed.

End TransferPassThrough.

Module TriggerRuns.
Import Trigger Utils Scenario.

Lemma catch_up_witness :
  connect host = Returned tt /\
  getBlockNumber (endpoint 1250 []) = Returned 1250 /\
  1 <= batchSize (blockStubs None None) /\
  last (watermarks
          (repeat {| cy_params := blockStubs None None; cy_host := host;
                     cy_provider := endpoint 1250 [] |} 4)
          {| lastBlock := Some 999 |})
       (Some 999) = Some 1250.
Proof.
  do 2 (split; [reflexivity|]).
  split; [vm_compute; discriminate|].
  refine (eq_trans
            (catch_up (blockStubs None None) host (endpoint 1250 []) tt
               1250 4 999 eq_refl eq_refl _) _).
  - vm_compute; discriminate.
  - vm_compute; reflexivity.
Defined.

Lemma watermark_bounded_witness :
  lastBlock {| lastBlock := Some 10 |} = Some 10 /\
  exists w',
    lastBlock (fst (poll (blockStubs (Some (-5)) None) host
                         (endpoint 20 []) {| lastBlock := Some 10 |}))
      = Some w' /\
    (forall head, getBlockNumber (endpoint 20 []) = Returned head ->
       w' <= Z.max 10 head).
Proof.
  split; [reflexivity|].
  destruct (watermark_bounded (blockStubs (Some (-5)) None) host
              (endpoint 20 []) {| lastBlock := Some 10 |} 10 eq_refl)
    as [w' [H1 [H2 _]]].
  exists w'. split; assumption.
Defined.


Example stubCycles_deliveries :
  last (watermarks stubCycles {| lastBlock := Some 999 |}) None = Some 1150 /\
  List.length (deliveries stubCycles {| lastBlock := Some 999 |}) = 151%nat.
Proof. split; vm_compute; reflexivity. Qed.

Lemma newBlock_details_witness :
  includeBlockDetails blockDetails = true /\
  newBlock blockDetails host (blockEndpoint 1001) 999 1001 =
  {| calls := [CallGetBlock 999 false; CallGetBlock 1000 false;
               CallGetBlock 1001 false];
     result := Returned [ItemBlock block1000 false] |}.
Proof.
  split; [reflexivity|].
  refine (eq_trans
            (newBlock_details blockDetails host (blockEndpoint 1001)
               999 1001 eq_refl _) _).
  - intros n _. cbn. destruct (n =? 1000); reflexivity.
  - vm_compute; reflexivity.
Defined.

Lemma contractEvent_one_item_per_log_witness :
  eventFilter strictHost (abi (activityParams "all"))
    (contractAddress (activityParams "all"))
    (eventName (activityParams "all")) = Returned true /\
  exists items,
    contractEvent (activityParams "all") strictHost (blockEndpoint 1001)
                  1000 1001 =
      {| calls := [CallQueryEvent dai "Transfer" 1000 1001];
         result := Returned items |} /\
    map item_log items =
      [Some (tl_log (transferLog 0 None)); Some (tl_log (transferLog 1 None))].
Proof.
  split; [reflexivity|].
  destruct (contractEvent_one_item_per_log (activityParams "all")
              strictHost (blockEndpoint 1001) 1000 1001 true
              [tl_log (transferLog 0 None); tl_log (transferLog 1 None)]
              eq_refl eq_refl) as [items [H1 [H2 _]]].
  exists items. split; assumption.
Defined.

Example unparsed_logs_emitted :
  result (contractEvent (activityParams "all") strictHost
                        (blockEndpoint 1001) 1000 1001) =
  Returned [ItemEvent (tl_log (transferLog 0 None)) "Transfer" [];
            ItemEvent (tl_log (transferLog 1 None)) "Transfer" []].
Proof. vm_compute. reflexivity. Qed.

Lemma addressActivity_sound_witness :
  result (addressActivity (activityParams "incoming") strictHost
            (blockEndpoint 1001) 1000 1001) = Returned incomingItems /\
  exists address minWei,
    (startsWith watched "0x" = true -> address = toLowerCase watched) /\
    minValueWei strictHost "0.5" = Returned minWei /\
    Forall (fun item =>
      exists blockNum block tx,
        1000 <= blockNum <= 1001 /\
        getBlock (blockEndpoint 1001) blockNum true
          = Returned (Some block) /\
        In tx (prefetchedTransactions block) /\
        item = ItemActivity
                 (if String.eqb (toLowerCase (tx_from tx)) address
                  then "outgoing" else "incoming")
                 tx blockNum (block_timestamp block) /\
        minWei <= tx_value tx) incomingItems.
Proof.
  assert (H : result (addressActivity (activityParams "incoming") strictHost
                        (blockEndpoint 1001) 1000 1001)
              = Returned incomingItems)
    by (vm_compute; reflexivity).
  split; [exact H|].
  destruct (addressActivity_sound _ _ _ _ _ _ H)
    as [address [minWei [Ha [Hm Hall]]]].
  exists address, minWei. split; [exact Ha|]. split; [exact Hm|].
  eapply Forall_impl; [|exact Hall].
  intros item [n [block [tx [Hn [Hb [Htx [Hitem [_ [Hv _]]]]]]]]].
  exists n, block, tx. auto.
Defined.

Lemma transfers_without_post_filter_witness :
  (event (transfers "nftTransfer" dai "from" watched) = "tokenTransfer" \/
   event (transfers "nftTransfer" dai "from" watched) = "nftTransfer") /\
  String.eqb "from" "either" && truthy watched = false /\
  returns (checksumAddress dai) = true /\
  forallb partiesAccepted scenario4_logs = true /\
  exists items,
    runEvent (transfers "nftTransfer" dai "from" watched) host
             (endpoint 1050 scenario4_logs) 1000 1050 =
      {| calls := [CallQueryTransfer ERC721_TRANSFER_ABI dai
                     {| tf_from := Some watched; tf_to := None |}
                     1000 1050];
         result := Returned items |} /\
    map item_log items =
      [Some (tl_log (transferLog 0 None));
       Some (tl_log (transferLog 1 None));
       Some (tl_log (transferLog 3 None))].
Proof.
  split; [right; reflexivity|].
  split; [reflexivity|].
  assert (Ht : returns (checksumAddress dai) = true)
    by (vm_compute; reflexivity).
  assert (Hp : forallb partiesAccepted scenario4_logs = true)
    by (vm_compute; reflexivity).
  split; [exact Ht|]. split; [exact Hp|].
  destruct (transfers_without_post_filter
              (transfers "nftTransfer" dai "from" watched) host
              (endpoint 1050 scenario4_logs) 1000 1050 scenario4_logs
              {| token_name := "Dai Stablecoin"; token_symbol := "DAI";
                 token_decimals := 18 |}
              (or_intror eq_refl) eq_refl eq_refl (fun _ => eq_refl) Ht Hp)
    as [items [H1 [H2 _]]].
  exists items. split; assumption.
Defined.

End TriggerRuns.
